(** * Verification of the ingestion-and-notification core of twitter-api-bot

    Shallow embedding of the Python modules [database.py], [ai_scheduler.py],
    [rate_limiter.py], [telegram_bot.py] and [whatsapp_handler.py].

    Conventions of the embedding:
    - tweet ids are decimal strings converted with [int()]; they are kept
      as [Z] here, the [str]/[int] round trip being the identity on them;
    - times ([datetime]) are [Z] microseconds; [timedelta.total_seconds()/60]
      compared against a number of minutes is compared exactly in
      microseconds;
    - a Python exception is a [Raise] outcome; an [except] clause is a match
      on it;
    - calling an [async def] without [await] builds a coroutine object and
      runs none of its body; such a coroutine is truthy like every Python
      object without [__bool__]. *)

From Stdlib Require Import ZArith Bool Lia QArith Sorted Permutation Ascii.
From stdpp Require Import base gmap strings list pretty.

Open Scope string_scope.
Open Scope list_scope.
Open Scope Z_scope.

(** ** Python runtime *)

Inductive exn :=
  | KeyError (key : string)
  | AttributeError (attr : string)
  | TypeError
  | NameError (name : string)
  | UniqueViolation
  | CollaboratorError
  | IndentationError (module_name : string).

Inductive outcome (A : Type) :=
  | Ok (a : A)
  | Raise (e : exn).
Arguments Ok {A} a.
Arguments Raise {A} e.

(** A coroutine object created by calling an [async def]; its body is the
    suspended computation, which only [await] would run. *)
Inductive coroutine (A : Type) := Coro (body : A).
Arguments Coro {A} body.

(** [bool(obj)] for a coroutine object: always [True]. *)
Definition coro_truthy {A} (c : coroutine A) : bool := true.

(** [await c]. *)
Definition await {A} (c : coroutine A) : A := match c with Coro b => b end.

(** ** database.py *)
Module Database.

(** Row of [sent_tweets]: [UNIQUE(tweet_id, channel_id)]. *)
Record sent_row := mk_sent_row {
  st_tweet_id : Z;
  st_username : string;
  st_channel_id : Z
}.

(** Row of [monitored_users]. *)
Record user_row := mk_user_row {
  u_channel_id : Z;
  u_last_tweet_id : option Z;
  u_is_active : bool
}.

Record DB := mk_DB {
  monitored_users : gmap string user_row;
  sent_tweets : list sent_row
}.

Definition same_key (tweet_id : Z) (channel_id : Z) (r : sent_row) : bool :=
  (st_tweet_id r =? tweet_id) && (st_channel_id r =? channel_id).

(** [is_tweet_sent]: [SELECT 1 FROM sent_tweets WHERE tweet_id = $1 AND
    channel_id = $2], then [result is not None]. *)
Definition is_tweet_sent (db : DB) (tweet_id : Z) (channel_id : Z) : bool :=
  existsb (same_key tweet_id channel_id) (sent_tweets db).

(** [record_sent_tweet]: a plain [INSERT INTO sent_tweets]; the table's
    [UNIQUE(tweet_id, channel_id)] constraint makes the database reject a
    second row for the same pair with a uniqueness violation. *)
Definition record_sent_tweet (db : DB) (tweet_id : Z) (username : string)
    (channel_id : Z) : outcome unit * DB :=
  if is_tweet_sent db tweet_id channel_id then (Raise UniqueViolation, db)
  else (Ok tt, mk_DB (monitored_users db)
                     (sent_tweets db ++ [mk_sent_row tweet_id username channel_id])).

(** [update_user_last_tweet]: [UPDATE monitored_users SET last_tweet_id = $1
    WHERE username = $2]; no row matches an unknown username. *)
Definition update_user_last_tweet (db : DB) (username : string) (tweet_id : Z) : DB :=
  match monitored_users db !! username with
  | Some u =>
      mk_DB (<[username := mk_user_row (u_channel_id u) (Some tweet_id) (u_is_active u)]>
               (monitored_users db))
            (sent_tweets db)
  | None => db
  end.

(** [update_user_last_tweet_id]: alias awaiting [update_user_last_tweet]. *)
Definition update_user_last_tweet_id (db : DB) (username : string) (tweet_id : Z) : DB :=
  update_user_last_tweet db username tweet_id.

Definition last_tweet_id (db : DB) (username : string) : option Z :=
  match monitored_users db !! username with
  | Some u => u_last_tweet_id u
  | None => None
  end.

(** A sequence of awaited ledger inserts, each one's error discarded
    (as a caller catching it would). *)
Fixpoint record_all (db : DB) (rows : list sent_row) : DB :=
  match rows with
  | [] => db
  | r :: rest =>
      record_all (snd (record_sent_tweet db (st_tweet_id r) (st_username r) (st_channel_id r)))
                 rest
  end.

Definition ledger_keys (db : DB) : list (Z * Z) :=
  map (fun r => (st_tweet_id r, st_channel_id r)) (sent_tweets db).

End Database.

(** ** ai_scheduler.py: the per-account cycle *)
Module Scheduler.
Import Database.

(** [models.Tweet] (only the fields the cycle reads). *)
Record Tweet := mk_tweet {
  t_id : Z;
  t_created_at : Z;
  t_text : string
}.

(** [models.UserWithChannel]. *)
Record UserWithChannel := mk_user {
  user_username : string;
  user_channel_id : Z;
  user_last_tweet_id : option Z;
  user_webhook_url : string
}.

(** [ai_analyzer.TweetRating]; a pydantic model, hence always truthy. *)
Record TweetRating := mk_rating {
  r_score : Z;
  r_category : string;
  r_action : string
}.

(** The collaborators the cycle calls, with the results they return. *)
Record Env := mk_env {
  enable_ai : bool;                       (* settings.ENABLE_AI_ANALYSIS *)
  analyzer_present : bool;                (* [analyzer] is not None *)
  analyze_tweet : Tweet -> outcome TweetRating;  (* await analyzer.analyze_tweet *)
  discord_sent : Tweet -> bool            (* result["sent"] of TieredDiscordClient.send_tweet *)
}.

(** Database calls issued by the cycle. *)
Inductive db_call :=
  | IsTweetSent (tweet_id : Z) (channel_id : Z)
  | RecordTweetRating (tweet_id : Z)
  | RecordSentTweet (tweet_id : Z) (channel_id : Z)
  | UpdateLastTweetId (username : string) (tweet_id : Z)
  | SetUserInactive (username : string).

(** Observable effects of a cycle. *)
Inductive event :=
  | Scored (tweet_id : Z)                       (* analyzer.analyze_tweet called *)
  | DiscordSend (tweet_id : Z) (score : Z) (sent : bool)
  | NeverAwaited (c : db_call)                  (* coroutine created, never run *)
  | Logged (e : exn).                           (* caught by an [except] *)

(** What [await] of each database call would do. *)
Definition run_db_call (db : DB) (c : db_call) : DB :=
  match c with
  | IsTweetSent _ _ | RecordTweetRating _ => db
  | RecordSentTweet tid ch => snd (record_sent_tweet db tid "" ch)
  | UpdateLastTweetId u tid => update_user_last_tweet_id db u tid
  | SetUserInactive u =>
      match monitored_users db !! u with
      | Some r => mk_DB (<[u := mk_user_row (u_channel_id r) (u_last_tweet_id r) false]>
                          (monitored_users db)) (sent_tweets db)
      | None => db
      end
  end.

(** [list.sort(key=lambda t: t.created_at)]: stable, ascending. *)
Fixpoint insert_by_created (t : Tweet) (l : list Tweet) : list Tweet :=
  match l with
  | [] => [t]
  | h :: rest => if t_created_at h <=? t_created_at t then h :: insert_by_created t rest
                 else t :: l
  end.

Definition sort_by_created (l : list Tweet) : list Tweet :=
  fold_left (fun acc t => insert_by_created t acc) l [].

(** [max(tweets, key=lambda t: int(t.id))]: the first tweet of maximal id. *)
Fixpoint max_by_id (t : Tweet) (l : list Tweet) : Tweet :=
  match l with
  | [] => t
  | h :: rest => max_by_id (if t_id t <? t_id h then h else t) rest
  end.

(** [_handle_new_user] (lines 87-98): the watermark update is called
    without [await]. *)
Definition handle_new_user (user : UserWithChannel) (tweets : list Tweet) : list event :=
  match tweets with
  | [] => []        (* max() of an empty list: never reached, guarded by the caller *)
  | t :: rest =>
      let newest_tweet := max_by_id t rest in
      let _ := Coro (fun db : DB => update_user_last_tweet_id db (user_username user)
                                                               (t_id newest_tweet)) in
      [NeverAwaited (UpdateLastTweetId (user_username user) (t_id newest_tweet))]
  end.

(** Lines 133-265 of [_handle_existing_user]: scoring then routing of one
    tweet that passed the "already sent" check. *)
Definition route_tweet (env : Env) (user : UserWithChannel) (tweet : Tweet)
    : outcome (list event) :=
  (* lines 134-161: AI analysis; any exception resets [rating] to None *)
  let '(rating, ev) :=
    if enable_ai env && analyzer_present env then
      match analyze_tweet env tweet with
      | Ok r => (Some r, [Scored (t_id tweet); NeverAwaited (RecordTweetRating (t_id tweet))])
      | Raise e => (None, [Scored (t_id tweet); Logged e])
      end
    else (None, []) in
  match enable_ai env, rating with
  | true, Some r =>
      if r_score r <? 2 then Ok ev                      (* filtered *)
      else if r_score r <? 8 then
        (* discord.send_tweet(user.username, tweet, {...}) *)
        let sent := discord_sent env tweet in
        Ok (ev ++ [DiscordSend (t_id tweet) (r_score r) sent]
               ++ (if sent then [NeverAwaited (RecordSentTweet (t_id tweet) (user_channel_id user))]
                   else []))
      else
        (* line 195: [if urgent_notifier:], a name bound neither locally nor
           in the module ([from urgent_notifier import UrgentNotifier]) *)
        Raise (NameError "urgent_notifier")
  | _, _ =>
      (* line 249: discord.send_tweet(user.webhook_url, user.username, tweet, {...})
         against [async def send_tweet(self, username, tweet, rating)]:
         four positional arguments for three parameters *)
      Raise TypeError
  end.

(** The [for tweet in new_tweets] loop (lines 123-268). *)
Fixpoint handle_loop (env : Env) (db : DB) (user : UserWithChannel) (tweets : list Tweet)
    (newest_id : Z) (tr : list event) : outcome (Z * list event) :=
  match tweets with
  | [] => Ok (newest_id, tr)
  | tweet :: rest =>
      let newest_id' := if newest_id <? t_id tweet then t_id tweet else newest_id in
      (* line 129: [if db.is_tweet_sent(tweet.id, user.channel_id):] without await *)
      let c := Coro (is_tweet_sent db (t_id tweet) (user_channel_id user)) in
      let tr1 := tr ++ [NeverAwaited (IsTweetSent (t_id tweet) (user_channel_id user))] in
      if coro_truthy c then handle_loop env db user rest newest_id' tr1
      else match route_tweet env user tweet with
           | Ok ev => handle_loop env db user rest newest_id' (tr1 ++ ev)
           | Raise e => Raise e
           end
  end.

(** [_handle_existing_user] (lines 100-273). *)
Definition handle_existing_user (env : Env) (db : DB) (user : UserWithChannel)
    (tweets : list Tweet) : outcome (list event) :=
  match user_last_tweet_id user with
  | None => Raise TypeError                   (* int(None) *)
  | Some last_id =>
      let new_tweets := List.filter (fun t => last_id <? t_id t) tweets in
      match new_tweets with
      | [] => Ok []
      | _ =>
          match handle_loop env db user (sort_by_created new_tweets) last_id [] with
          | Raise e => Raise e
          | Ok (newest_id, tr) =>
              if last_id <? newest_id then
                (* line 272: db.update_user_last_tweet_id(...) without await *)
                Ok (tr ++ [NeverAwaited (UpdateLastTweetId (user_username user) newest_id)])
              else Ok tr
          end
      end
  end.

(** [_process_user] (lines 45-85) after a successful fetch of [tweets]:
    returns the database after the call and the events.  No database call
    on this path is awaited, so the database is passed through. *)
Definition process_user (env : Env) (db : DB) (user : UserWithChannel)
    (tweets : list Tweet) : DB * list event :=
  match tweets with
  | [] => (db, [])
  | _ =>
      match user_last_tweet_id user with
      | None => (db, handle_new_user user tweets)
      | Some _ =>
          match handle_existing_user env db user tweets with
          | Ok tr => (db, tr)
          | Raise e => (db, [Logged e])        (* [except Exception] *)
          end
      end
  end.

(** Awaiting every database call a cycle issued: what the cycle would have
    written had its calls been awaited. *)
Definition await_all (db : DB) (tr : list event) : DB :=
  fold_left (fun d ev => match ev with NeverAwaited c => run_db_call d c | _ => d end) tr db.

Definition is_delivery (ev : event) : bool :=
  match ev with DiscordSend _ _ _ => true | _ => false end.

Definition is_scored (ev : event) : bool :=
  match ev with Scored _ => true | _ => false end.

End Scheduler.

(** ** rate_limiter.py *)
Module RateLimiter.

(** [QueuedTweet] (the fields the queue logic reads). *)
Record QueuedTweet := mk_queued {
  q_username : string;
  q_tweet_id : Z;
  q_score : Z;
  q_received_at : Z
}.

(** State of [NotificationRateLimiter]. *)
Record Limiter := mk_limiter {
  last_notification_time : option Z;
  queue : list QueuedTweet
}.

Definition COOLDOWN_MINUTES : Z := 15.
Definition MAX_QUEUE_SIZE : Z := 10.

(** [COOLDOWN_MINUTES] in microseconds. *)
Definition cooldown_us : Z := COOLDOWN_MINUTES * 60 * 1000000.

(** [should_send_notification] (lines 46-61): [elapsed < COOLDOWN_MINUTES]
    with [elapsed] in minutes, i.e. [now - last] below the cooldown. *)
Definition should_send_notification (lim : Limiter) (now : Z) : bool :=
  match last_notification_time lim with
  | Some last => if now - last <? cooldown_us then false else true
  | None => true
  end.

(** [queue_tweet] (lines 63-101): returns the position and the new state. *)
Definition queue_tweet (lim : Limiter) (entry : QueuedTweet) : Z * Limiter :=
  if existsb (fun existing => q_tweet_id existing =? q_tweet_id entry) (queue lim)
  then (-1, lim)                                       (* already queued *)
  else
    let q := queue lim ++ [entry] in
    let position := Z.of_nat (length q) in
    if MAX_QUEUE_SIZE <? Z.of_nat (length q)
    then (position, mk_limiter (last_notification_time lim) (tail q))  (* pop(0): oldest *)
    else (position, mk_limiter (last_notification_time lim) q).

(** [mark_notification_sent] (lines 103-107); the cooldown timer task it
    starts only sleeps and logs. *)
Definition mark_notification_sent (lim : Limiter) (now : Z) : Limiter :=
  mk_limiter (Some now) (queue lim).

(** [get_next_batch] (lines 163-168). *)
Definition get_next_batch (lim : Limiter) (max_size : nat) : list QueuedTweet * Limiter :=
  (firstn max_size (queue lim), mk_limiter (last_notification_time lim) (skipn max_size (queue lim))).

(** Values stored in the status dictionary. *)
Inductive pyval :=
  | PBool (b : bool)
  | PNum (z : Z)
  | PStr (s : string)
  | PNone.

Definition py_truthy (v : pyval) : bool :=
  match v with
  | PBool b => b
  | PNum z => negb (z =? 0)
  | PStr s => negb (String.eqb s "")
  | PNone => false
  end.

(** [d[key]] on a dict given as its list of items. *)
Definition py_getitem (d : list (string * pyval)) (key : string) : outcome pyval :=
  match List.find (fun kv => String.eqb (fst kv) key) d with
  | Some (_, v) => Ok v
  | None => Raise (KeyError key)
  end.

(** [get_status] (lines 170-189); numbers are in microseconds, the
    timestamp is abbreviated to its value. *)
Definition get_status (lim : Limiter) (now : Z) : list (string * pyval) :=
  let '(remaining, in_cooldown) :=
    match last_notification_time lim with
    | Some last => let r := Z.max 0 (cooldown_us - (now - last)) in (r, 0 <? r)
    | None => (0, false)
    end in
  [("in_cooldown", PBool in_cooldown);
   ("cooldown_remaining_minutes", PNum remaining);
   ("cooldown_total_minutes", PNum COOLDOWN_MINUTES);
   ("queue_size", PNum (Z.of_nat (length (queue lim))));
   ("max_queue_size", PNum MAX_QUEUE_SIZE);
   ("last_notification",
     match last_notification_time lim with Some t => PNum t | None => PNone end)].

(** Urgent-tier admission in [_handle_existing_user] (lines 197-242), run
    as a sequence: [a_check] is when [should_send_notification] runs,
    [a_deliver] when the notification goes out, [a_mark] when
    [mark_notification_sent] runs. *)
Record admission := mk_admission {
  a_entry : QueuedTweet;
  a_check : Z;
  a_sent : bool;         (* notify_result["sent"] *)
  a_deliver : Z;
  a_mark : Z
}.

Definition admit_step (lim : Limiter) (a : admission) : Limiter * option Z :=
  if should_send_notification lim (a_check a) then
    if a_sent a then (mark_notification_sent lim (a_mark a), Some (a_deliver a))
    else (lim, None)
  else (snd (queue_tweet lim (a_entry a)), None).

Fixpoint run_admissions (lim : Limiter) (adms : list admission) : Limiter * list Z :=
  match adms with
  | [] => (lim, [])
  | a :: rest =>
      let '(lim1, d) := admit_step lim a in
      let '(lim2, ds) := run_admissions lim1 rest in
      (lim2, match d with Some t => t :: ds | None => ds end)
  end.

(** Clock discipline of a sequence of admissions starting at time [t0]:
    each step's instants are ordered, and the next step starts after the
    previous one's mark. *)
Fixpoint timed (t0 : Z) (adms : list admission) : Prop :=
  match adms with
  | [] => True
  | a :: rest => t0 <= a_check a /\ a_check a <= a_deliver a /\ a_deliver a <= a_mark a
                 /\ timed (a_mark a) rest
  end.

Definition last_before (lim : Limiter) (t0 : Z) : Prop :=
  match last_notification_time lim with Some l => l <= t0 | None => True end.

Fixpoint run_queue (lim : Limiter) (entries : list QueuedTweet) : Limiter :=
  match entries with
  | [] => lim
  | e :: rest => run_queue (snd (queue_tweet lim e)) rest
  end.

End RateLimiter.

(** ** ai_scheduler.py: the notification drainer *)
Module Drainer.
Import RateLimiter.

Inductive notif_event :=
  | NLogged (e : exn)
  | NDelivered (tweet_id : Z)
  | NPendingStored (tweet_id : Z).

(** One wake of [_process_notification_queue] (lines 348-420) while
    [self.running]: after [get_status], [status["in_delay_period"]] is read;
    past it, [rate_limiter.get_next_tweet()] names a method
    [NotificationRateLimiter] does not define.  Every exception is caught
    by the [except Exception] of line 419. *)
Definition drainer_wake (lim : Limiter) (now : Z) : Limiter * list notif_event :=
  let status := get_status lim now in
  match py_getitem status "in_delay_period" with
  | Raise e => (lim, [NLogged e])
  | Ok v =>
      if py_truthy v then (lim, [])                               (* continue *)
      else (lim, [NLogged (AttributeError "get_next_tweet")])
  end.

End Drainer.

(** ** telegram_bot.py: [TelegramBot.process_reply] *)
Module Telegram.

(** An entry of [self.pending_tweets] (keyed by alert id). *)
Record TPending := mk_tpending {
  tp_username : string;
  tp_text : string;
  tp_score : Z;
  tp_category : string;
  tp_reason : string;
  tp_status : string
}.

(** [await enhanced_build_agent.build_project(...)]: [result["success"]],
    or an exception. *)
Record TEnv := mk_tenv {
  build_project : string -> outcome bool
}.

Inductive tevent :=
  | TInteresting (username : string) (text : string)  (* discord_client.send_interesting *)
  | TBuild (text : string)                            (* build collaborator invoked *)
  | TPrompt (alert_id : string)                       (* requirements prompt sent *)
  | TLogged (e : exn).

Inductive treply_kind :=
  | RSentInteresting | RDiscordError | RSkipped | RAskRequirements | RNoText
  | RBuildStarted | RBuildFailed | RBuildError | RUnknownAction.

(** The returned dict: ["success"] and which ["message"]. *)
Record TReply := mk_treply { tr_success : bool; tr_kind : treply_kind }.

Definition text_truthy (o : option string) : bool :=
  match o with Some s => negb (String.eqb s "") | None => false end.

Definition chat_truthy (o : option Z) : bool :=
  match o with Some z => negb (z =? 0) | None => false end.

(** [if alert_id in self.pending_tweets: self.pending_tweets[alert_id]["status"] = s] *)
Definition set_status (pt : gmap string TPending) (alert_id : string) (s : string)
    : gmap string TPending :=
  match pt !! alert_id with
  | Some p => <[alert_id := mk_tpending (tp_username p) (tp_text p) (tp_score p)
                                       (tp_category p) (tp_reason p) s]> pt
  | None => pt
  end.

(** [from build_agent_enhanced import enhanced_build_agent], run inside the
    [try] of [process_reply] (lines 266 and 360): build_agent_enhanced.py
    does not parse (line 569 is indented past the end of its call), so the
    import raises [IndentationError], a subclass of [Exception]. *)
Definition import_build_agent : outcome unit :=
  Raise (IndentationError "build_agent_enhanced").

(** [process_reply(action, alert_id, user_text, chat_id)] (lines 243-380).
    [db.get_pending_build] and [db.create_pending_build] are attributes the
    [Database] class of database.py does not define. *)
Definition process_reply (env : TEnv) (pt : gmap string TPending) (action alert_id : string)
    (user_text : option string) (chat_id : option Z)
    : outcome TReply * gmap string TPending * list tevent :=
  if text_truthy user_text && chat_truthy chat_id then
    (Raise (AttributeError "get_pending_build"), pt, [])
  else
    let pending := pt !! alert_id in
    let username := match pending with Some p => tp_username p | None => "unknown" end in
    let text := match pending with Some p => tp_text p | None => "" end in
    if String.eqb action "INTERESTING" then
      (Ok (mk_treply true RSentInteresting), set_status pt alert_id "interesting",
       [TInteresting username text])
    else if String.eqb action "NOTHING" then
      (Ok (mk_treply true RSkipped), set_status pt alert_id "filtered", [])
    else if String.eqb action "BUILD" then
      if chat_truthy chat_id then
        (* request_build_requirements: the database write fails and is logged,
           the prompt is sent *)
        (Ok (mk_treply true RAskRequirements), pt,
         [TLogged (AttributeError "create_pending_build"); TPrompt alert_id])
      else if String.eqb text "" then (Ok (mk_treply false RNoText), pt, [])
      else
        match import_build_agent with
        | Raise _ => (Ok (mk_treply false RBuildError), pt, [])
        | Ok _ =>
            match build_project env text with
            | Ok true => (Ok (mk_treply true RBuildStarted), set_status pt alert_id "built", [TBuild text])
            | Ok false => (Ok (mk_treply false RBuildFailed), pt, [TBuild text])
            | Raise _ => (Ok (mk_treply false RBuildError), pt, [TBuild text])
            end
        end
    else (Ok (mk_treply false RUnknownAction), pt, []).

(** The Telegram webhook of api.py (lines 440-453) for a button press:
    [process_reply(action, tweet_id)], with no text and no chat id. *)
Definition webhook_callback (env : TEnv) (pt : gmap string TPending) (action alert_id : string)
    : outcome TReply * gmap string TPending * list tevent :=
  process_reply env pt action alert_id None None.

End Telegram.

(** ** whatsapp_handler.py: [WhatsAppActionHandler.process_reply] *)
Module WhatsApp.

(** An entry of [self.pending_tweets] (keyed by phone). *)
Record WPending := mk_wpending {
  wp_username : string;
  wp_tweet_id : Z;
  wp_text : string;
  wp_score : Z
}.

Record WEnv := mk_wenv {
  interesting_webhook : bool;        (* settings.DISCORD_WEBHOOK_INTERESTING set *)
  discord_send : bool;               (* DiscordClient.send_tweet result *)
  build_result : outcome bool        (* build_project(...)["success"] or exception *)
}.

Inductive wmsg := MsgBuildStarted | MsgBuildComplete | MsgBuildFailed | MsgBuildError.

Inductive wevent :=
  | WDiscord (tweet_id : Z)          (* sent to the INTERESTING channel *)
  | WWhatsApp (m : wmsg)             (* notifier._send_whatsapp_raw *)
  | WBuild (text : string).

Inductive wreply :=
  | WNoPending | WUnknownReply | WNotConfigured | WSentInteresting | WDiscordFailed
  | WError | WNoted | WBuildDone | WBuildError.

Inductive waction := AInteresting | ANothing | ABuild | AUnknown.

(** [str.strip().upper()] on the ASCII range. *)
Definition is_space (c : Ascii.ascii) : bool :=
  let n := Ascii.nat_of_ascii c in
  (Nat.leb 9 n && Nat.leb n 13) || (Nat.leb 28 n && Nat.leb n 32).

Definition ascii_upper (c : Ascii.ascii) : Ascii.ascii :=
  let n := Ascii.nat_of_ascii c in
  if Nat.leb 97 n && Nat.leb n 122 then Ascii.ascii_of_nat (n - 32) else c.

Fixpoint upper (s : string) : string :=
  match s with
  | EmptyString => EmptyString
  | String c r => String (ascii_upper c) (upper r)
  end.

Fixpoint lstrip (s : string) : string :=
  match s with
  | String c r => if is_space c then lstrip r else s
  | EmptyString => EmptyString
  end.

Fixpoint rstrip (s : string) : string :=
  match s with
  | EmptyString => EmptyString
  | String c r =>
      let r' := rstrip r in
      if is_space c && String.eqb r' "" then EmptyString else String c r'
  end.

Definition strip_upper (s : string) : string := upper (rstrip (lstrip s)).

(** [needle in hay] for strings. *)
Fixpoint contains (needle hay : string) : bool :=
  String.prefix needle hay ||
  match hay with
  | EmptyString => false
  | String _ r => contains needle r
  end.

(** [_parse_action] (lines 90-106). *)
Definition parse_action (reply : string) : waction :=
  let r := strip_upper reply in
  if existsb (fun x => contains x r) ["INTERESTING"; "YES"; "SEND"; "1"; "DISCORD"] then AInteresting
  else if existsb (fun x => contains x r) ["NOTHING"; "NO"; "SKIP"; "IGNORE"; "2"; "BAD"; "TRASH"] then ANothing
  else if existsb (fun x => contains x r) ["BUILD"; "CREATE"; "MAKE"; "PROJECT"; "3"; "REPO"] then ABuild
  else AUnknown.

(** [process_reply(phone, reply_text)] (lines 52-88) with its handlers
    (lines 108-295).  [db.log_user_action] is an attribute the [Database]
    class does not define. *)
Definition process_reply (env : WEnv) (st : gmap string WPending) (phone reply_text : string)
    : outcome wreply * gmap string WPending * list wevent :=
  let reply := strip_upper reply_text in
  match st !! phone with
  | None => (Ok WNoPending, st, [])
  | Some p =>
      match parse_action reply with
      | AInteresting =>
          if negb (interesting_webhook env) then (Ok WNotConfigured, st, [])
          else if discord_send env
          then (Ok WError, st, [WDiscord (wp_tweet_id p)])   (* log_user_action raises, caught *)
          else (Ok WDiscordFailed, st, [WDiscord (wp_tweet_id p)])
      | ANothing => (Raise (AttributeError "log_user_action"), st, [])
      | ABuild =>
          let ev := [WWhatsApp MsgBuildStarted; WBuild (wp_text p)] in
          match build_result env with
          | Raise _ => (Ok WBuildError, st, ev ++ [WWhatsApp MsgBuildError])
          | Ok true =>
              (* success message sent, then log_user_action raises: outer except *)
              (Ok WBuildError, st,
               ev ++ (if interesting_webhook env then [WDiscord (wp_tweet_id p)] else [])
                  ++ [WWhatsApp MsgBuildComplete; WWhatsApp MsgBuildError])
          | Ok false => (Ok WBuildDone, delete phone st, ev ++ [WWhatsApp MsgBuildFailed])
          end
      | AUnknown => (Ok WUnknownReply, st, [])
      end
  end.

End WhatsApp.

Module LimiterQueue.
Import RateLimiter.

(** [sorted(self.queue, key=lambda x: x.score, reverse=True)]: stable, so
    entries of equal score keep their queue order. *)
Fixpoint insert_by_score_desc (e : QueuedTweet) (l : list QueuedTweet) : list QueuedTweet :=
  match l with
  | [] => [e]
  | h :: rest => if q_score e <=? q_score h then h :: insert_by_score_desc e rest
                 else e :: l
  end.

Definition sort_by_score_desc (l : list QueuedTweet) : list QueuedTweet :=
  fold_left (fun acc e => insert_by_score_desc e acc) l [].

(** The summary dict; a top tweet is given by the fields the queue entries
    carry ([username], [score]); [avg_score] is the exact mean (the float
    rounding of [round(avg_score, 1)] is not modelled). *)
Record QueueSummary := mk_summary {
  s_total : Z;
  s_top_tweets : list (string * Z);
  s_avg_score : Q;
  s_highest_score : Z
}.

Definition sum_scores (l : list QueuedTweet) : Z := fold_right Z.add 0 (map q_score l).

(** [get_queued_summary] (lines 126-153). *)
Definition get_queued_summary (lim : Limiter) : option QueueSummary :=
  match queue lim with
  | [] => None
  | q =>
      let sorted_queue := sort_by_score_desc q in
      let top_tweets := firstn 5 sorted_queue in
      let total_queued := Z.of_nat (length q) in
      Some (mk_summary total_queued
              (map (fun t => (q_username t, q_score t)) top_tweets)
              (inject_Z (sum_scores q) / inject_Z total_queued)
              (match sorted_queue with t :: _ => q_score t | [] => 0 end))
  end.

(** [clear_queue] (lines 155-161): the number of entries removed. *)
Definition clear_queue (lim : Limiter) : Z * Limiter :=
  (Z.of_nat (length (queue lim)), mk_limiter (last_notification_time lim) []).

(** Repeated [get_next_batch(max_size)] calls, [rounds] of them. *)
Fixpoint drain_batches (lim : Limiter) (max_size : nat) (rounds : nat)
    : list (list QueuedTweet) * Limiter :=
  match rounds with
  | O => ([], lim)
  | S r =>
      let '(batch, lim1) := get_next_batch lim max_size in
      let '(bs, lim2) := drain_batches lim1 max_size r in
      (batch :: bs, lim2)
  end.

End LimiterQueue.

Module WhatsAppStore.
Import Scheduler WhatsApp.

(** An entry of [self.pending_tweets] as [store_pending_tweet] writes it:
    the tweet and its rating, [sent_at] and [status]. *)
Record WStored := mk_wstored {
  ws_pending : WPending;
  ws_sent_at : Z;
  ws_status : string
}.

(** [store_pending_tweet] (lines 41-50), at time [now]. *)
Definition store_pending_tweet (st : gmap string WStored) (phone username : string)
    (tweet : Tweet) (score : Z) (now : Z) : gmap string WStored :=
  <[phone := mk_wstored (mk_wpending username (t_id tweet) (t_text tweet) score) now "pending"]> st.

(** [age > max_age_minutes] with [age] in minutes, compared exactly in
    microseconds. *)
Definition is_expired (now max_age_minutes : Z) (d : WStored) : bool :=
  max_age_minutes * 60000000 <? now - ws_sent_at d.

(** [cleanup_expired] (lines 301-313): collect the expired phones, then
    delete each. *)
Definition cleanup_expired (st : gmap string WStored) (now max_age_minutes : Z)
    : gmap string WStored :=
  let expired := map fst (List.filter (fun kv => is_expired now max_age_minutes (snd kv))
                                      (map_to_list st)) in
  fold_left (fun m phone => delete phone m) expired st.

End WhatsAppStore.

Module TelegramIds.
Import Telegram.

(** [f"{n:03d}"] for a non-negative [n]: zero-padded to three digits. *)
Definition pad3 (s : string) : string :=
  match String.length s with
  | 1%nat => "00" ++ s
  | 2%nat => "0" ++ s
  | _ => s
  end.

Definition format_id (category : string) (n : Z) : string :=
  category ++ "-" ++ pad3 (pretty (Z.to_N n)).

(** [self.category_counters] and [self.global_counter]. *)
Record IdGen := mk_idgen {
  category_counters : gmap string Z;
  global_counter : Z
}.

Definition init_idgen : IdGen := mk_idgen ∅ 0.

(** [_generate_tweet_id] (lines 34-46); [upper()] on ASCII text. *)
Definition generate_tweet_id (g : IdGen) (category : string) : string * IdGen :=
  let category := String.substring 0 10 (WhatsApp.upper category) in
  let counters :=
    match category_counters g !! category with
    | Some _ => category_counters g
    | None => <[category := 0]> (category_counters g)
    end in
  let n := default 0 (counters !! category) + 1 in
  (format_id category n, mk_idgen (<[category := n]> counters) (global_counter g + 1)).

Fixpoint generate_ids (g : IdGen) (categories : list string) : list string * IdGen :=
  match categories with
  | [] => ([], g)
  | c :: rest =>
      let '(id, g1) := generate_tweet_id g c in
      let '(ids, g2) := generate_ids g1 rest in
      (id :: ids, g2)
  end.

(** [send_urgent_tweet] (lines 48-129): [enabled] is [self.enabled];
    [delivered] is whether the [sendMessage] request answered 200 with a
    [message_id].  The alert id is drawn before the request is made. *)
Definition send_urgent_tweet (enabled delivered : bool) (g : IdGen) (pt : gmap string TPending)
    (username tweet_text : string) (score : Z) (category reason : string)
    : option string * IdGen * gmap string TPending :=
  if negb enabled then (None, g, pt)
  else
    let '(alert_id, g1) := generate_tweet_id g category in
    if delivered
    then (Some alert_id, g1,
          <[alert_id := mk_tpending username tweet_text score category reason "pending"]> pt)
    else (None, g1, pt).

Record SendReq := mk_send_req {
  sr_delivered : bool;
  sr_username : string;
  sr_text : string;
  sr_score : Z;
  sr_category : string;
  sr_reason : string
}.

Fixpoint run_sends (enabled : bool) (g : IdGen) (pt : gmap string TPending) (reqs : list SendReq)
    : list (option string) * IdGen * gmap string TPending :=
  match reqs with
  | [] => ([], g, pt)
  | r :: rest =>
      let '(res, g1, pt1) :=
        send_urgent_tweet enabled (sr_delivered r) g pt (sr_username r) (sr_text r)
                          (sr_score r) (sr_category r) (sr_reason r) in
      let '(ress, g2, pt2) := run_sends enabled g1 pt1 rest in
      (res :: ress, g2, pt2)
  end.

(** [get_pending_count] (lines 382-384). *)
Definition get_pending_count (pt : gmap string TPending) : nat :=
  length (List.filter (fun p => String.eqb (tp_status p) "pending") (map snd (map_to_list pt))).

End TelegramIds.


(** ** database.py: channels and the synchronous methods; api.py; main.py *)
Module Catalog.
Import Database Scheduler.

(** Row of [channels]. *)
Record channel_row := mk_channel_row {
  ch_name : string;
  ch_webhook_url : string
}.

(** The committed tables: [monitored_users] and [sent_tweets] as before,
    [channels] by id, and the last id each id sequence handed out. *)
Record Catalog := mk_catalog {
  cat_db : DB;
  channels : gmap Z channel_row;
  channel_seq : Z;
  user_seq : Z
}.


(** A row of [get_active_users_with_channels]. *)
Record active_row := mk_active_row {
  a_username : string;
  a_channel_id : Z;
  a_last_tweet_id : option Z;
  a_is_active : bool;
  a_channel_name : string;
  a_webhook_url : string
}.

(** A row of [list_channels]. *)
Record listed_channel := mk_listed_channel {
  lc_id : Z;
  lc_name : string;
  lc_webhook_url : string;
  lc_user_count : nat
}.

(** A row of [list_users]. *)
Record listed_user := mk_listed_user {
  lu_username : string;
  lu_channel_name : string;
  lu_last_tweet_id : option Z;
  lu_is_active : bool
}.

Definition users (st : Catalog) : gmap string user_row := monitored_users (cat_db st).

(** [SELECT * FROM channels WHERE name = ?], first row. *)
Definition channel_by_name (st : Catalog) (name : string) : option (Z * channel_row) :=
  head (List.filter (fun kv => String.eqb (ch_name (snd kv)) name) (map_to_list (channels st))).

(** The [JOIN channels c ON u.channel_id = c.id WHERE u.is_active] query. *)
Definition active_join (st : Catalog) : list active_row :=
  omap (fun ur : string * user_row =>
          let '(u, r) := ur in
          if u_is_active r then
            match channels st !! u_channel_id r with
            | Some ch => Some (mk_active_row u (u_channel_id r) (u_last_tweet_id r) true
                                             (ch_name ch) (ch_webhook_url ch))
            | None => None
            end
          else None)
       (map_to_list (users st)).

(** Each synchronous method (lines 276-486) first checks
    [asyncio.get_event_loop().is_running()] and returns its fallback when
    called from a running loop. *)
Definition get_active_users_with_channels (loop_running : bool) (st : Catalog) : list active_row :=
  if loop_running then [] else active_join st.

Definition users_in (st : Catalog) (cid : Z) : nat :=
  length (List.filter (fun ur : string * user_row => u_channel_id (snd ur) =? cid)
                      (map_to_list (users st))).

Definition list_channels (loop_running : bool) (st : Catalog) : list listed_channel :=
  if loop_running then []
  else map (fun kv : Z * channel_row =>
              mk_listed_channel (fst kv) (ch_name (snd kv)) (ch_webhook_url (snd kv))
                                (users_in st (fst kv)))
           (map_to_list (channels st)).

(** [SELECT u.*, c.name FROM monitored_users u JOIN channels c ...], keeping
    the users whose channel id passes [keep]. *)
Definition joined_users (st : Catalog) (keep : Z -> bool) : list listed_user :=
  omap (fun ur : string * user_row =>
          let '(u, r) := ur in
          match channels st !! u_channel_id r with
          | Some ch => if keep (u_channel_id r)
                       then Some (mk_listed_user u (ch_name ch) (u_last_tweet_id r) (u_is_active r))
                       else None
          | None => None
          end)
       (map_to_list (users st)).

Definition list_users (loop_running : bool) (st : Catalog) (channel : option string)
    : list listed_user :=
  if loop_running then []
  else
    match channel with
    | Some c =>
        if String.eqb c "" then joined_users st (fun _ => true)
        else match channel_by_name st c with
             | None => []
             | Some (cid, _) => joined_users st (fun x => x =? cid)
             end
    | None => joined_users st (fun _ => true)
    end.

Definition get_all_users (loop_running : bool) (st : Catalog) : list listed_user :=
  list_users loop_running st None.

Definition get_channel_by_name (loop_running : bool) (st : Catalog) (name : string)
    : option (Z * channel_row) :=
  if loop_running then None else channel_by_name st name.

(** The methods below follow the SQLite backend (no [DATABASE_URL]; the
    PostgreSQL pool is only created by [init], which nothing awaits).
    aiosqlite opens a transaction before an INSERT; [fetchone] closes the
    connection without [commit()], which rolls the INSERT back, while
    [execute] commits.  SQLite leaves foreign keys unenforced. *)

(** [create_channel]: [INSERT INTO channels ... RETURNING id] through
    [fetchone]: the UNIQUE name is checked, the AUTOINCREMENT id is
    returned, and the row is rolled back. *)
Definition create_channel (loop_running : bool) (st : Catalog) (name webhook_url : string)
    : outcome Z * Catalog :=
  if loop_running then (Ok 0, st)
  else
    match channel_by_name st name with
    | Some _ => (Raise UniqueViolation, st)
    | None => (Ok (channel_seq st + 1), st)
    end.

(** [delete_channel]: [DELETE FROM channels WHERE name = ?] through
    [execute] (committed), then [return True]. *)
Definition delete_channel (loop_running : bool) (st : Catalog) (name : string) : bool * Catalog :=
  if loop_running then (false, st)
  else (true, mk_catalog (cat_db st)
                         (filter (fun kv : Z * channel_row => ch_name kv.2 <> name) (channels st))
                         (channel_seq st) (user_seq st)).

(** [add_user]: [INSERT INTO monitored_users ... RETURNING id] through
    [fetchone]. *)
Definition add_user (loop_running : bool) (st : Catalog) (username : string)
    (channel_id : Z) (last_tweet_id : option Z) : outcome Z * Catalog :=
  if loop_running then (Ok 0, st)
  else
    match users st !! username with
    | Some _ => (Raise UniqueViolation, st)
    | None => (Ok (user_seq st + 1), st)
    end.

(** [remove_user]: [DELETE FROM monitored_users WHERE username = ?] through
    [execute], then [return True]. *)
Definition remove_user (loop_running : bool) (st : Catalog) (username : string) : bool * Catalog :=
  if loop_running then (false, st)
  else (true, mk_catalog (mk_DB (delete username (users st)) (sent_tweets (cat_db st)))
                         (channels st) (channel_seq st) (user_seq st)).

(** [str.lower()] on the ASCII range. *)
Definition ascii_lower (c : Ascii.ascii) : Ascii.ascii :=
  let n := Ascii.nat_of_ascii c in
  if Nat.leb 65 n && Nat.leb n 90 then Ascii.ascii_of_nat (n + 32) else c.

Fixpoint lower (s : string) : string :=
  match s with
  | EmptyString => EmptyString
  | String c r => String (ascii_lower c) (lower r)
  end.

(** [normalize_username] of main.py (lines 51-56); api.py inlines the same
    three lines. *)
Definition normalize_username (username : string) : string :=
  let username := lower (WhatsApp.rstrip (WhatsApp.lstrip username)) in
  match username with
  | String c rest => if Ascii.eqb c (Ascii.ascii_of_nat 64) then rest else username   (* "@" *)
  | EmptyString => username
  end.

(** api.py: responses of the channel and user endpoints (lines 100-226). *)
Inductive api_body :=
  | BChannelCreated (id : Z)
  | BUserCreated (id : Z)
  | BDeleted
  | BChannels (l : list listed_channel)
  | BUsers (l : list listed_user)
  | BStatus (running : bool) (users_count channels_count : nat).

Inductive api_response :=
  | ApiOk (b : api_body)
  | ApiError (status : Z).

(** FastAPI awaits [async def] endpoints on its running event loop, so the
    synchronous database methods they call see [loop.is_running()]. *)
Definition in_endpoint : bool := true.

Definition api_get_channels (st : Catalog) : api_response * Catalog :=
  (ApiOk (BChannels (list_channels in_endpoint st)), st).

(** ["UNIQUE constraint failed" in str(e)] holds for SQLite's uniqueness
    error. *)
Definition api_create_channel (st : Catalog) (name webhook_url : string) : api_response * Catalog :=
  match create_channel in_endpoint st name webhook_url with
  | (Ok id, st') => (ApiOk (BChannelCreated id), st')
  | (Raise UniqueViolation, st') => (ApiError 400, st')
  | (Raise _, st') => (ApiError 500, st')
  end.

(** [HTTPException(404)] is raised inside the [try] and caught by its
    [except Exception], which raises a 500. *)
Definition api_delete_channel (st : Catalog) (name : string) : api_response * Catalog :=
  let '(deleted, st') := delete_channel in_endpoint st name in
  if deleted then (ApiOk BDeleted, st') else (ApiError 500, st').

Definition api_get_users (st : Catalog) (channel : option string) : api_response * Catalog :=
  (ApiOk (BUsers (list_users in_endpoint st channel)), st).

(** [create_user]: [fetched] is what [client.get_last_tweets(username)]
    returns.  [channel.id] reads an attribute of the dict [fetchone]
    returns. *)
Definition api_create_user (st : Catalog) (username channel_name : string)
    (fetched : outcome (list Tweet)) : api_response * Catalog :=
  let username := normalize_username username in
  match get_channel_by_name in_endpoint st channel_name with
  | None => (ApiError 404, st)
  | Some _ =>
      match fetched with
      | Raise _ => (ApiError 500, st)
      | Ok _ => (ApiError 500, st)         (* AttributeError: 'dict' has no attribute 'id' *)
      end
  end.

Definition api_delete_user (st : Catalog) (username : string) : api_response * Catalog :=
  let '(deleted, st') := remove_user in_endpoint st (normalize_username username) in
  if deleted then (ApiOk BDeleted, st') else (ApiError 500, st').

Definition api_get_status (running : bool) (st : Catalog) : api_response * Catalog :=
  (ApiOk (BStatus running (length (list_users in_endpoint st None))
                          (length (list_channels in_endpoint st))), st).

(** main.py: the CLI commands run the synchronous methods outside any
    event loop, except [db.add_user], which [user_add] calls inside
    [asyncio.run]. *)
Inductive cli_result :=
  | CliCreated (id : Z)
  | CliAlreadyExists
  | CliDeleted
  | CliNotFound
  | CliAdded
  | CliRemoved
  | CliNoKey
  | CliError.

Definition cli_channel_create (st : Catalog) (name webhook_url : string) : cli_result * Catalog :=
  match create_channel false st name webhook_url with
  | (Ok id, st') => (CliCreated id, st')
  | (Raise UniqueViolation, st') => (CliAlreadyExists, st')
  | (Raise _, st') => (CliError, st')
  end.

Definition cli_channel_delete (st : Catalog) (name : string) : cli_result * Catalog :=
  let '(deleted, st') := delete_channel false st name in
  if deleted then (CliDeleted, st') else (CliNotFound, st').

(** [user_add] (lines 185-244): [key_set] is [settings.TWITTERAPI_KEY];
    [fetched] the result of [client.get_last_tweets]. *)
Definition cli_user_add (st : Catalog) (username channel_name : string)
    (key_set : bool) (fetched : outcome (list Tweet)) : cli_result * Catalog :=
  let normalized := normalize_username username in
  if negb key_set then (CliNoKey, st)
  else
    match get_channel_by_name false st channel_name with
    | None => (CliNotFound, st)
    | Some _ =>
        match fetched with
        | Raise _ => (CliError, st)
        | Ok _ => (CliError, st)            (* AttributeError: 'dict' has no attribute 'id' *)
        end
    end.

Definition cli_user_remove (st : Catalog) (username : string) : cli_result * Catalog :=
  let '(deleted, st') := remove_user false st (normalize_username username) in
  if deleted then (CliRemoved, st') else (CliNotFound, st').

End Catalog.

(** ** ai_scheduler.py: the cycle around [_process_user] *)
Module CycleRun.
Import Database Scheduler Catalog.

(** The exceptions [twitter.get_last_tweets] raises, as [_process_user]
    tells them apart. *)
Inductive fetch_error := TwitterNotFound | TwitterAuth | TwitterRateLimit | FetchOther.

Inductive fetch_result :=
  | Fetched (tweets : list Tweet)
  | FetchFailed (e : fetch_error).

(** [_process_user] (lines 45-85): the re-raised error if any, the
    database and the events.  [db.set_user_inactive] is called without
    [await]. *)
Definition process_user_fetch (env : Env) (db : DB) (user : UserWithChannel) (fr : fetch_result)
    : option fetch_error * DB * list event :=
  match fr with
  | Fetched tweets => let '(db', evs) := process_user env db user tweets in (None, db', evs)
  | FetchFailed TwitterNotFound => (None, db, [NeverAwaited (SetUserInactive (user_username user))])
  | FetchFailed TwitterAuth => (Some TwitterAuth, db, [])
  | FetchFailed TwitterRateLimit => (None, db, [])
  | FetchFailed FetchOther => (None, db, [Logged CollaboratorError])
  end.

Inductive cycle_outcome :=
  | NoActiveUsers
  | CycleCompleted (results : list exn).   (* asyncio.gather(..., return_exceptions=True) *)

(** [run_once] (lines 298-344) is a coroutine: the loop is running when it
    calls [db.get_active_users_with_channels()].  Were rows returned, each
    is a dict, and the first statement of [_process_user] reads
    [user.username]. *)
Definition in_cycle : bool := true.

Definition run_once_with (loop_running : bool) (st : Catalog) : cycle_outcome :=
  match get_active_users_with_channels loop_running st with
  | [] => NoActiveUsers
  | rows => CycleCompleted (map (fun _ => AttributeError "username") rows)
  end.

Definition run_once (st : Catalog) : cycle_outcome := run_once_with in_cycle st.

(** [run] (lines 422-472): with AI analysis and urgent notifications on,
    line 439 reads [rate_limiter.MIN_DELAY_MINUTES], an attribute
    [NotificationRateLimiter] does not define, before the first cycle.
    [sts] is the database each successive cycle finds. *)
Definition run (enable_ai urgent_enabled : bool) (sts : list Catalog) : outcome (list cycle_outcome) :=
  if enable_ai && urgent_enabled then Raise (AttributeError "MIN_DELAY_MINUTES")
  else Ok (map run_once sts).

End CycleRun.

(** * Properties *)

(** ** The database layer and the cycle *)
Module CycleProofs.
Import Database Scheduler.

Definition bump (n : Z) (t : Tweet) : Z := if n <? t_id t then t_id t else n.

Lemma bump_max n t : bump n t = Z.max n (t_id t).
Proof. unfold bump. destruct (Z.ltb_spec n (t_id t)); lia. Qed.

Lemma fold_bump_perm (l l' : list Tweet) :
  Permutation l l' -> forall a, fold_left bump l a = fold_left bump l' a.
Proof.
  induction 1 as [|x l l' _ IH|x y l|l l' l'' _ IH1 _ IH2]; intros a; simpl.
  - reflexivity.
  - apply IH.
  - f_equal. rewrite !bump_max. lia.
  - rewrite IH1. apply IH2.
Qed.

Lemma insert_by_created_perm (t : Tweet) (l : list Tweet) :
  Permutation (insert_by_created t l) (t :: l).
Proof.
  induction l as [|h r IH]; simpl; [reflexivity|].
  destruct (t_created_at h <=? t_created_at t).
  - rewrite IH. apply perm_swap.
  - reflexivity.
Qed.

Lemma fold_insert_perm (l acc : list Tweet) :
  Permutation (fold_left (fun acc t => insert_by_created t acc) l acc) (l ++ acc).
Proof.
  revert acc. induction l as [|t l IH]; intros acc; simpl; [reflexivity|].
  rewrite IH, insert_by_created_perm. symmetry. apply Permutation_middle.
Qed.

Lemma sort_by_created_perm (l : list Tweet) : Permutation (sort_by_created l) l.
Proof. unfold sort_by_created. rewrite fold_insert_perm. by rewrite app_nil_r. Qed.

Lemma fold_bump_ge (l : list Tweet) a : a <= fold_left bump l a.
Proof.
  revert a. induction l as [|t l IH]; intros a; simpl; [lia|].
  specialize (IH (bump a t)). pose proof (bump_max a t). lia.
Qed.

Lemma fold_bump_filter (last : Z) (l : list Tweet) a :
  last <= a ->
  fold_left bump (List.filter (fun t => last <? t_id t) l) a = fold_left bump l a.
Proof.
  revert a. induction l as [|t l IH]; intros a Ha; simpl; [reflexivity|].
  destruct (Z.ltb_spec last (t_id t)); simpl.
  - apply IH. rewrite bump_max. lia.
  - replace (bump a t) with a by (rewrite bump_max; lia). by apply IH.
Qed.

(** The dedup check of line 129 is a coroutine object, hence always true:
    the loop skips every tweet. *)
Lemma handle_loop_skips env db user (tweets : list Tweet) n tr :
  handle_loop env db user tweets n tr =
  Ok (fold_left bump tweets n,
      tr ++ map (fun t => NeverAwaited (IsTweetSent (t_id t) (user_channel_id user))) tweets).
Proof.
  revert n tr. induction tweets as [|t rest IH]; intros n tr; simpl.
  - by rewrite app_nil_r.
  - rewrite IH. unfold bump. by rewrite <- app_assoc.
Qed.

Definition watermark_writes (tr : list event) : list Z :=
  omap (fun ev => match ev with NeverAwaited (UpdateLastTweetId _ v) => Some v | _ => None end) tr.

Lemma watermark_writes_app tr1 tr2 :
  watermark_writes (tr1 ++ tr2) = watermark_writes tr1 ++ watermark_writes tr2.
Proof. unfold watermark_writes. apply omap_app. Qed.

Lemma watermark_writes_checks user (l : list Tweet) :
  watermark_writes (map (fun t => NeverAwaited (IsTweetSent (t_id t) (user_channel_id user))) l) = [].
Proof. induction l; simpl; auto. Qed.

Lemma handle_existing_user_eq env db user tweets last :
  user_last_tweet_id user = Some last ->
  handle_existing_user env db user tweets =
  let new_tweets := List.filter (fun t => last <? t_id t) tweets in
  let M := fold_left bump (sort_by_created new_tweets) last in
  match new_tweets with
  | [] => Ok []
  | _ => Ok (map (fun t => NeverAwaited (IsTweetSent (t_id t) (user_channel_id user)))
                 (sort_by_created new_tweets)
             ++ (if last <? M then [NeverAwaited (UpdateLastTweetId (user_username user) M)]
                 else []))
  end.
Proof.
  intros H. unfold handle_existing_user. rewrite H. simpl.
  destruct (List.filter _ tweets) eqn:Hf; [reflexivity|].
  rewrite handle_loop_skips. simpl.
  destruct (last <? _); by rewrite ?app_nil_r.
Qed.

End CycleProofs.

Module LedgerProofs.
Import Database.

Lemma record_sent_tweet_nodup (db : DB) tid u ch :
  NoDup (ledger_keys db) -> NoDup (ledger_keys (snd (record_sent_tweet db tid u ch))).
Proof.
  intros Hnd. unfold record_sent_tweet.
  destruct (is_tweet_sent db tid ch) eqn:E; simpl; [done|].
  unfold ledger_keys; simpl. rewrite map_app. apply NoDup_app. split; [done|].
  split; [|apply NoDup_singleton].
  intros x Hx Hx'. simpl in Hx'. apply list_elem_of_singleton in Hx'. subst x.
  apply list_elem_of_In, in_map_iff in Hx as [r [Hr Hin]].
  assert (same_key tid ch r = true) as Hs.
  { unfold same_key. injection Hr as -> ->. by rewrite !Z.eqb_refl. }
  unfold is_tweet_sent in E.
  assert (existsb (same_key tid ch) (sent_tweets db) = true) as Ht
    by (apply existsb_exists; eauto).
  congruence.
Qed.

Lemma record_all_nodup (db : DB) (rows : list sent_row) :
  NoDup (ledger_keys db) -> NoDup (ledger_keys (record_all db rows)).
Proof.
  revert db. induction rows as [|r rows IH]; intros db Hnd; simpl; [done|].
  apply IH. by apply record_sent_tweet_nodup.
Qed.

End LedgerProofs.

(** ** Claims on the cycle and the database layer *)
Module CycleClaims.
Import Database Scheduler CycleProofs LedgerProofs.

Definition db_alice : DB :=
  mk_DB {[ "alice" := mk_user_row 7 (Some 200) true ]} [].


Definition carol : UserWithChannel := mk_user "carol" 7 (Some 100) "https://discord/hook".


(** A scorer that fails on every tweet; a Discord channel that accepts. *)
Definition env_failing_scorer : Env :=
  mk_env true true (fun _ => Raise CollaboratorError) (fun _ => true).

(** C1 (code_bug): whatever the Delivery Ledger holds, a cycle over an
    account scores and delivers none of its tweets: the "already sent"
    check of line 129 tests a never-awaited coroutine, which is always
    truthy, so every candidate (even one with no DeliveryRecord) is skipped;
    the database is left as it was. *)
Theorem cycle_skips_every_candidate (env : Env) (db : DB) (user : UserWithChannel)
    (tweets : list Tweet) :
  fst (process_user env db user tweets) = db /\
  Forall (fun ev => is_scored ev = false /\ is_delivery ev = false)
         (snd (process_user env db user tweets)).
Proof.
  unfold process_user. destruct tweets as [|t rest]; simpl; [split; [done|constructor]|].
  destruct (user_last_tweet_id user) as [last|] eqn:Hl; simpl.
  - rewrite (handle_existing_user_eq env db user (t :: rest) last Hl). cbv zeta.
    destruct (List.filter _ (t :: rest)); simpl; (split; [done|]); [constructor|].
    apply Forall_app. split.
    + apply Forall_forall. intros ev Hev. apply list_elem_of_In, in_map_iff in Hev as [? [<- _]]. done.
    + destruct (last <? _); repeat constructor.
  - split; [done|]. repeat constructor.
Qed.



(** C2 counterexample: a watermark write carrying a lower value than the
    stored one is accepted: alice's watermark goes from 200 down to 100. *)
Lemma watermark_write_can_decrease :
  last_tweet_id db_alice "alice" = Some 200 /\
  last_tweet_id (update_user_last_tweet db_alice "alice" 100) "alice" = Some 100.
Proof. split; reflexivity. Qed.

(** C2 (corrected): [update_user_last_tweet] stores whatever value it is
    given; the only guard is in the caller: when [_handle_existing_user]
    completes, it issues a watermark update only if the highest fetched id
    exceeds the watermark read at the start of the cycle, and then with
    that highest id. *)
Theorem watermark_guard_only_in_caller (db : DB) (u : string) (r : user_row) (v : Z)
    (env : Env) (user : UserWithChannel) (tweets : list Tweet) (last : Z) (tr : list event)
    (Hrow : monitored_users db !! u = Some r)
    (Hlast : user_last_tweet_id user = Some last)
    (Hok : handle_existing_user env db user tweets = Ok tr) :
  last_tweet_id (update_user_last_tweet db u v) u = Some v /\
  watermark_writes tr =
    (let M := fold_left (fun m t => Z.max m (t_id t)) tweets last in
     if last <? M then [M] else []).
Proof.
  split.
  - unfold update_user_last_tweet, last_tweet_id. rewrite Hrow. simpl.
    by rewrite lookup_insert_eq.
  - assert (HM : fold_left (fun m t => Z.max m (t_id t)) tweets last = fold_left bump tweets last).
    { generalize last. clear Hlast Hok. induction tweets as [|x xs IH]; intros a; simpl; [done|].
      rewrite bump_max. apply IH. }
    simpl. rewrite HM. clear HM.
    rewrite (handle_existing_user_eq env db user tweets last Hlast) in Hok. simpl in Hok.
    pose proof (fold_bump_filter last tweets last (Z.le_refl _)) as Hf.
    destruct (List.filter _ tweets) as [|t l] eqn:E.
    + injection Hok as <-. simpl in Hf. rewrite <- Hf, Z.ltb_irrefl. reflexivity.
    + injection Hok as <-.
      rewrite <- Hf, <- (fold_bump_perm _ _ (sort_by_created_perm (t :: l))).
      rewrite watermark_writes_app, watermark_writes_checks. simpl.
      by destruct (last <? _).
Qed.

(** C3 counterexample: inserting a DeliveryRecord for a pair already in
    the ledger is not a silent no-op: it raises a uniqueness violation. *)
Lemma duplicate_ledger_insert_raises :
  let db := mk_DB ∅ [mk_sent_row 101 "alice" 7] in
  record_sent_tweet db 101 "alice" 7 = (Raise UniqueViolation, db).
Proof. reflexivity. Qed.

(** C3 (corrected): a duplicate ledger insert raises a uniqueness violation
    and leaves the ledger unchanged; any sequence of inserts keeps at most
    one record per (item id, channel id). *)
Theorem ledger_duplicate_rejected_unique (db : DB) (tid : Z) (u : string) (ch : Z)
    (rows : list sent_row)
    (Hdup : is_tweet_sent db tid ch = true)
    (Hnd : NoDup (ledger_keys db)) :
  record_sent_tweet db tid u ch = (Raise UniqueViolation, db) /\
  NoDup (ledger_keys (record_all db rows)).
Proof.
  split.
  - unfold record_sent_tweet. by rewrite Hdup.
  - by apply record_all_nodup.
Qed.

End CycleClaims.

Module CycleWitnesses.
Import Database Scheduler CycleClaims.



Lemma watermark_guard_only_in_caller_witness :
  last_tweet_id (update_user_last_tweet db_alice "alice" 100) "alice" = Some 100 /\
  CycleProofs.watermark_writes
    [NeverAwaited (IsTweetSent 101 7); NeverAwaited (IsTweetSent 104 7); NeverAwaited (IsTweetSent 105 7);
     NeverAwaited (UpdateLastTweetId "carol" 105)] =
    (let M := fold_left (fun m t => Z.max m (t_id t))
                [mk_tweet 101 1 "a"; mk_tweet 104 2 "b"; mk_tweet 105 3 "c"] 100 in
     if 100 <? M then [M] else []).
Proof.
  apply (watermark_guard_only_in_caller db_alice "alice" (mk_user_row 7 (Some 200) true) 100
           env_failing_scorer carol
           [mk_tweet 101 1 "a"; mk_tweet 104 2 "b"; mk_tweet 105 3 "c"] 100
           [NeverAwaited (IsTweetSent 101 7); NeverAwaited (IsTweetSent 104 7); NeverAwaited (IsTweetSent 105 7);
            NeverAwaited (UpdateLastTweetId "carol" 105)]); reflexivity.
Defined.

Lemma ledger_duplicate_rejected_unique_witness :
  let db := mk_DB ∅ [mk_sent_row 101 "alice" 7] in
  record_sent_tweet db 101 "alice" 7 = (Raise UniqueViolation, db) /\
  NoDup (ledger_keys (record_all db [mk_sent_row 101 "alice" 7; mk_sent_row 102 "alice" 7])).
Proof.
  apply (ledger_duplicate_rejected_unique (mk_DB ∅ [mk_sent_row 101 "alice" 7]) 101 "alice" 7
           [mk_sent_row 101 "alice" 7; mk_sent_row 102 "alice" 7]).
  - reflexivity.
  - unfold ledger_keys. simpl. apply NoDup_singleton.
Defined.

End CycleWitnesses.

(** ** Claims on the rate-limited queue and the drainer *)
Module LimiterProofs.
Import RateLimiter.

Lemma should_send_notification_iff (l : Limiter) (now : Z) :
  should_send_notification l now = true <->
  last_notification_time l = None \/
  exists last, last_notification_time l = Some last /\ cooldown_us <= now - last.
Proof.
  unfold should_send_notification.
  destruct (last_notification_time l) as [last|].
  - destruct (Z.ltb_spec (now - last) cooldown_us) as [Hlt|Hge]; split; intros H.
    + discriminate.
    + destruct H as [H|[x [Hx Hle]]]; [discriminate|]. injection Hx as ->. lia.
    + right. eauto.
    + reflexivity.
  - split; auto.
Qed.

Lemma queue_tweet_last (lim : Limiter) (e : QueuedTweet) :
  last_notification_time (snd (queue_tweet lim e)) = last_notification_time lim.
Proof.
  unfold queue_tweet. destruct (existsb _ _); [done|]. by destruct (_ <? _).
Qed.

Lemma cooldown_us_nonneg : 0 <= cooldown_us.
Proof. unfold cooldown_us, COOLDOWN_MINUTES. lia. Qed.

Lemma run_admissions_spaced (adms : list admission) :
  forall (lim : Limiter) (t0 : Z),
  last_before lim t0 -> timed t0 adms ->
  Forall (fun d => t0 <= d /\
                   forall l, last_notification_time lim = Some l -> cooldown_us <= d - l)
         (snd (run_admissions lim adms)) /\
  ForallOrdPairs (fun d1 d2 => cooldown_us <= d2 - d1) (snd (run_admissions lim adms)).
Proof.
  pose proof cooldown_us_nonneg as Hc.
  induction adms as [|a rest IH]; intros lim t0 Hlast Htimed; simpl.
  { split; constructor. }
  destruct Htimed as (H0 & H1 & H2 & Htimed).
  unfold admit_step.
  destruct (should_send_notification lim (a_check a)) eqn:Hs.
  - apply should_send_notification_iff in Hs.
    destruct (a_sent a).
    + destruct (run_admissions (mark_notification_sent lim (a_mark a)) rest) as [lim2 ds] eqn:Hr.
      destruct (IH (mark_notification_sent lim (a_mark a)) (a_mark a)) as [Hall Hpairs];
        [unfold last_before; simpl; lia | exact Htimed |].
      rewrite Hr in Hall, Hpairs. simpl in Hall, Hpairs |- *.
      split; [constructor|constructor].
      * split; [lia|]. intros l Hl.
        destruct Hs as [Hs|[x [Hx Hle]]]; [congruence|]. rewrite Hl in Hx. injection Hx as <-. lia.
      * eapply Forall_impl; [exact Hall|]. intros d [Hd Hm].
        specialize (Hm (a_mark a) eq_refl). split; [lia|].
        intros l Hl. unfold last_before in Hlast. rewrite Hl in Hlast. lia.
      * eapply Forall_impl; [exact Hall|]. intros d [Hd Hm].
        specialize (Hm (a_mark a) eq_refl). lia.
      * exact Hpairs.
    + destruct (run_admissions lim rest) as [lim2 ds] eqn:Hr.
      destruct (IH lim (a_mark a)) as [Hall Hpairs];
        [unfold last_before in *; destruct (last_notification_time lim); lia | exact Htimed |].
      rewrite Hr in Hall, Hpairs. simpl in *.
      split; [|exact Hpairs].
      eapply Forall_impl; [exact Hall|]. intros d [Hd Hm]. split; [lia|exact Hm].
  - destruct (run_admissions (snd (queue_tweet lim (a_entry a))) rest) as [lim2 ds] eqn:Hr.
    destruct (IH (snd (queue_tweet lim (a_entry a))) (a_mark a)) as [Hall Hpairs];
      [unfold last_before in *; rewrite queue_tweet_last;
       destruct (last_notification_time lim); lia | exact Htimed |].
    rewrite Hr in Hall, Hpairs. simpl in *.
    split; [|exact Hpairs].
    eapply Forall_impl; [exact Hall|]. intros d [Hd Hm]. split; [lia|].
    intros l Hl. apply Hm. by rewrite queue_tweet_last.
Qed.

Lemma queue_tweet_length (lim : Limiter) (e : QueuedTweet) :
  Z.of_nat (length (queue lim)) <= MAX_QUEUE_SIZE ->
  Z.of_nat (length (queue (snd (queue_tweet lim e)))) <= MAX_QUEUE_SIZE.
Proof.
  intros H. unfold queue_tweet. destruct (existsb _ _); [done|].
  destruct (Z.ltb_spec MAX_QUEUE_SIZE (Z.of_nat (length (queue lim ++ [e])))) as [Hlt|Hle];
    simpl; [|exact Hle].
  unfold MAX_QUEUE_SIZE in *.
  destruct (queue lim) as [|x q]; simpl in *; rewrite ?length_app in *; simpl in *; lia.
Qed.

Lemma run_queue_length (entries : list QueuedTweet) :
  forall lim : Limiter, Z.of_nat (length (queue lim)) <= MAX_QUEUE_SIZE ->
  Z.of_nat (length (queue (run_queue lim entries))) <= MAX_QUEUE_SIZE.
Proof.
  induction entries as [|e rest IH]; intros lim H; simpl; [done|].
  apply IH. by apply queue_tweet_length.
Qed.

End LimiterProofs.

Module LimiterClaims.
Import RateLimiter Drainer LimiterProofs.

Definition entry (id score : Z) : QueuedTweet := mk_queued "dave" id score 0.

(** A full queue whose oldest entry is the best one. *)
Definition full_limiter : Limiter :=
  mk_limiter (Some 0) (entry 1 10 :: map (fun i => entry i 8) [2; 3; 4; 5; 6; 7; 8; 9; 10]).

(** C4: the admission check says "send now" exactly when there was no
    prior notification or at least the cooldown has elapsed since it; and
    along any sequence of admissions, each successful send being followed
    by [mark_notification_sent], two immediate deliveries are always at
    least the cooldown apart. *)
Theorem urgent_deliveries_spaced_by_cooldown (lim : Limiter) (t0 : Z) (adms : list admission)
    (Hlast : last_before lim t0) (Htimed : timed t0 adms) :
  (forall (l : Limiter) (now : Z),
     should_send_notification l now = true <->
     last_notification_time l = None \/
     exists last, last_notification_time l = Some last /\ cooldown_us <= now - last) /\
  ForallOrdPairs (fun d1 d2 => cooldown_us <= d2 - d1) (snd (run_admissions lim adms)).
Proof.
  split.
  - apply should_send_notification_iff.
  - exact (proj2 (run_admissions_spaced adms lim t0 Hlast Htimed)).
Qed.

Lemma urgent_deliveries_spaced_by_cooldown_witness :
  (forall (l : Limiter) (now : Z),
     should_send_notification l now = true <->
     last_notification_time l = None \/
     exists last, last_notification_time l = Some last /\ cooldown_us <= now - last) /\
  ForallOrdPairs (fun d1 d2 => cooldown_us <= d2 - d1)
    (snd (run_admissions (mk_limiter None [])
            [mk_admission (entry 1 9) 0 true 1 2;
             mk_admission (entry 2 9) 60000000 true 60000001 60000002;
             mk_admission (entry 3 10) 900000002 true 900000003 900000004])).
Proof.
  apply (urgent_deliveries_spaced_by_cooldown (mk_limiter None []) 0
           [mk_admission (entry 1 9) 0 true 1 2;
            mk_admission (entry 2 9) 60000000 true 60000001 60000002;
            mk_admission (entry 3 10) 900000002 true 900000003 900000004]).
  - exact I.
  - simpl. lia.
Defined.

(** C5 counterexample: admitting a score-8 entry into a full queue whose
    oldest entry scores 10 evicts that score-10 entry, while only score-8
    entries remain: the evicted entry is not the lowest-scoring one. *)
Lemma queue_evicts_best_oldest_entry :
  queue (snd (queue_tweet full_limiter (entry 11 8))) =
    map (fun i => entry i 8) [2; 3; 4; 5; 6; 7; 8; 9; 10; 11] /\
  In (entry 1 10) (queue full_limiter) /\
  q_score (entry 1 10) = 10.
Proof. split; [reflexivity|]. split; [left; reflexivity|reflexivity]. Qed.

(** C5 (corrected): starting within the bound, the queue never holds more
    than [MAX_QUEUE_SIZE] entries; an entry whose tweet id is already queued
    is refused; and an admission into a full queue evicts its oldest entry
    (the front of the arrival-ordered list), whatever the scores. *)
Theorem queue_bounded_evicts_oldest (lim : Limiter) (entries : list QueuedTweet)
    (e : QueuedTweet)
    (Hbound : Z.of_nat (length (queue lim)) <= MAX_QUEUE_SIZE) :
  Z.of_nat (length (queue (run_queue lim entries))) <= MAX_QUEUE_SIZE /\
  (existsb (fun x => q_tweet_id x =? q_tweet_id e) (queue lim) = true ->
   queue_tweet lim e = (-1, lim)) /\
  (existsb (fun x => q_tweet_id x =? q_tweet_id e) (queue lim) = false ->
   Z.of_nat (length (queue lim)) = MAX_QUEUE_SIZE ->
   exists oldest rest, queue lim = oldest :: rest /\
                       queue (snd (queue_tweet lim e)) = rest ++ [e]).
Proof.
  split; [by apply run_queue_length|]. split.
  - intros Hdup. unfold queue_tweet. by rewrite Hdup.
  - intros Hnew Hfull. unfold queue_tweet. rewrite Hnew.
    destruct (queue lim) as [|oldest rest] eqn:Hq; [unfold MAX_QUEUE_SIZE in Hfull; simpl in Hfull; lia|].
    exists oldest, rest. split; [done|].
    assert (Hlt : (MAX_QUEUE_SIZE <? Z.of_nat (length ((oldest :: rest) ++ [e]))) = true).
    { apply Z.ltb_lt. rewrite length_app. simpl in *. lia. }
    rewrite Hlt. reflexivity.
Qed.

End LimiterClaims.

Module LimiterWitnesses.
Import RateLimiter LimiterClaims.

Lemma queue_bounded_evicts_oldest_witness :
  Z.of_nat (length (queue (run_queue full_limiter [entry 11 8; entry 11 8; entry 12 9]))) <= MAX_QUEUE_SIZE /\
  (existsb (fun x => q_tweet_id x =? q_tweet_id (entry 12 9)) (queue full_limiter) = true ->
   queue_tweet full_limiter (entry 12 9) = (-1, full_limiter)) /\
  (existsb (fun x => q_tweet_id x =? q_tweet_id (entry 12 9)) (queue full_limiter) = false ->
   Z.of_nat (length (queue full_limiter)) = MAX_QUEUE_SIZE ->
   exists oldest rest, queue full_limiter = oldest :: rest /\
                       queue (snd (queue_tweet full_limiter (entry 12 9))) = rest ++ [entry 12 9]).
Proof.
  apply (queue_bounded_evicts_oldest full_limiter [entry 11 8; entry 11 8; entry 12 9] (entry 12 9)).
  unfold MAX_QUEUE_SIZE. simpl. lia.
Defined.

End LimiterWitnesses.

Module DrainerClaims.
Import RateLimiter Drainer.

(** C6 (code_bug): every wake of the drainer fails on
    [status["in_delay_period"]], a key [get_status] never returns (it
    returns ["in_cooldown"]); the [KeyError] is caught and logged, so no
    entry is ever removed, delivered, timestamped or turned into a pending
    action, whatever the cooldown and the queue. *)
Theorem drainer_wake_never_drains (lim : Limiter) (now : Z) :
  drainer_wake lim now = (lim, [NLogged (KeyError "in_delay_period")]).
Proof.
  unfold drainer_wake, get_status.
  destruct (last_notification_time lim); reflexivity.
Qed.

End DrainerClaims.

(** ** Claims on the reply processors *)
Module ReplyClaims.
Import WhatsApp Telegram.

Definition alert_pending (status : string) : TPending :=
  mk_tpending "erin" "an agent that files invoices" 9 "ai" "buildable" status.

Definition env_build_ok : TEnv := mk_tenv (fun _ => Ok true).

Definition tg_store (status : string) : gmap string TPending :=
  {[ "AI-001" := alert_pending status ]}.

Definition wa_env : WEnv := mk_wenv true true (Ok true).

(** C7 counterexample: on Telegram, INTERESTING on an alert already
    [filtered] forwards it again and reopens it as [interesting]; NOTHING
    on an alert id that has no record reports success, not "not found". *)
Lemma telegram_reply_reopens_terminal_alert :
  process_reply env_build_ok (tg_store "filtered") "INTERESTING" "AI-001" None None =
    (Ok (mk_treply true RSentInteresting), tg_store "interesting",
     [TInteresting "erin" "an agent that files invoices"]) /\
  process_reply env_build_ok (tg_store "filtered") "NOTHING" "AI-999" None None =
    (Ok (mk_treply true RSkipped), tg_store "filtered", []).
Proof. split; reflexivity. Qed.

(** C7 (corrected): only the WhatsApp processor has a not-found guard: a
    reply for a phone with no pending record is answered "No pending tweet
    found" with no side effect and no mutation.  The Telegram processor
    checks neither existence nor state: on an existing alert, whatever its
    status (terminal ones included), NOTHING sets it to [filtered] and
    INTERESTING forwards it and sets it to [interesting]; on an unknown
    alert id, NOTHING reports success with no effect and INTERESTING
    forwards a placeholder ("unknown", empty text), both reporting success. *)
Theorem reply_guards_whatsapp_only (wenv : WEnv) (st : gmap string WPending) (phone text : string)
    (env : TEnv) (pt : gmap string TPending) (alert unknown : string) (p : TPending)
    (Hphone : st !! phone = None)
    (Halert : pt !! alert = Some p)
    (Hunknown : pt !! unknown = None) :
  WhatsApp.process_reply wenv st phone text = (Ok WNoPending, st, []) /\
  Telegram.process_reply env pt "NOTHING" alert None None =
    (Ok (mk_treply true RSkipped),
     <[alert := mk_tpending (tp_username p) (tp_text p) (tp_score p) (tp_category p)
                            (tp_reason p) "filtered"]> pt, []) /\
  Telegram.process_reply env pt "INTERESTING" alert None None =
    (Ok (mk_treply true RSentInteresting),
     <[alert := mk_tpending (tp_username p) (tp_text p) (tp_score p) (tp_category p)
                            (tp_reason p) "interesting"]> pt,
     [TInteresting (tp_username p) (tp_text p)]) /\
  Telegram.process_reply env pt "NOTHING" unknown None None =
    (Ok (mk_treply true RSkipped), pt, []) /\
  Telegram.process_reply env pt "INTERESTING" unknown None None =
    (Ok (mk_treply true RSentInteresting), pt, [TInteresting "unknown" ""]).
Proof.
  split; [unfold WhatsApp.process_reply; by rewrite Hphone|].
  unfold Telegram.process_reply, set_status; simpl.
  rewrite Halert, Hunknown. repeat split.
Qed.

Lemma reply_guards_whatsapp_only_witness :
  WhatsApp.process_reply wa_env ∅ "whatsapp:+15550100" "BUILD" = (Ok WNoPending, ∅, []) /\
  Telegram.process_reply env_build_ok (tg_store "built") "NOTHING" "AI-001" None None =
    (Ok (mk_treply true RSkipped),
     <["AI-001" := mk_tpending "erin" "an agent that files invoices" 9 "ai" "buildable" "filtered"]>
       (tg_store "built"), []) /\
  Telegram.process_reply env_build_ok (tg_store "built") "INTERESTING" "AI-001" None None =
    (Ok (mk_treply true RSentInteresting),
     <["AI-001" := mk_tpending "erin" "an agent that files invoices" 9 "ai" "buildable" "interesting"]>
       (tg_store "built"),
     [TInteresting "erin" "an agent that files invoices"]) /\
  Telegram.process_reply env_build_ok (tg_store "built") "NOTHING" "AI-404" None None =
    (Ok (mk_treply true RSkipped), tg_store "built", []) /\
  Telegram.process_reply env_build_ok (tg_store "built") "INTERESTING" "AI-404" None None =
    (Ok (mk_treply true RSentInteresting), tg_store "built", [TInteresting "unknown" ""]).
Proof.
  apply (reply_guards_whatsapp_only wa_env ∅ "whatsapp:+15550100" "BUILD" env_build_ok
           (tg_store "built") "AI-001" "AI-404" (alert_pending "built")); reflexivity.
Defined.

Definition count_builds (evs : list tevent) : nat :=
  length (List.filter (fun ev => match ev with TBuild _ => true | _ => false end) evs).

(** C8 (code bug): no Telegram reply ever invokes the build collaborator,
    and no reply marks an alert [built]: a reply either keeps the alert
    records or sets the status to [interesting] or [filtered].  BUILD with
    a chat id sends the prompt, but storing the pending build fails
    ([db.create_pending_build] does not exist) and nothing records that
    requirements are awaited.  The free-text reply with a chat id raises
    on [db.get_pending_build], which does not exist either.  The DEFAULT
    button ([BUILD_DEFAULT]) is an unknown action.  The BUILD button (no
    chat id) fails on the import of build_agent_enhanced and leaves the
    alert [pending]. *)
Theorem telegram_build_never_runs (env : TEnv) (pt : gmap string TPending)
    (alert text : string) (chat : Z)
    (Hchat : chat <> 0) (Htext : text <> "") :
  (forall action user_text chat_id,
     let '(_, pt', evs) := Telegram.process_reply env pt action alert user_text chat_id in
     count_builds evs = 0%nat /\
     (pt' = pt \/ pt' = set_status pt alert "interesting" \/ pt' = set_status pt alert "filtered")) /\
  Telegram.process_reply env pt "BUILD" alert None (Some chat) =
    (Ok (mk_treply true RAskRequirements), pt,
     [TLogged (AttributeError "create_pending_build"); TPrompt alert]) /\
  (forall action,
     Telegram.process_reply env pt action alert (Some text) (Some chat) =
       (Raise (AttributeError "get_pending_build"), pt, [])) /\
  webhook_callback env pt "BUILD_DEFAULT" alert = (Ok (mk_treply false RUnknownAction), pt, []) /\
  webhook_callback env pt "BUILD" alert =
    (Ok (mk_treply false
           (if String.eqb (match pt !! alert with Some p => tp_text p | None => "" end) ""
            then RNoText else RBuildError)), pt, []).
Proof.
  assert (Hc : chat_truthy (Some chat) = true)
    by (unfold chat_truthy; apply negb_true_iff, Z.eqb_neq; exact Hchat).
  assert (Ht : text_truthy (Some text) = true)
    by (unfold text_truthy; apply negb_true_iff, String.eqb_neq; exact Htext).
  split.
  { intros action user_text chat_id. unfold Telegram.process_reply.
    destruct (text_truthy user_text && chat_truthy chat_id); [split; [done|by left]|].
    cbv zeta.
    destruct (String.eqb action "INTERESTING"); [split; [done|by right; left]|].
    destruct (String.eqb action "NOTHING"); [split; [done|by right; right]|].
    destruct (String.eqb action "BUILD"); [|split; [done|by left]].
    destruct (chat_truthy chat_id); [split; [done|by left]|].
    destruct (String.eqb _ ""); split; try done; by left. }
  split.
  { unfold Telegram.process_reply. rewrite Hc. reflexivity. }
  split.
  { intros action. unfold Telegram.process_reply. rewrite Ht, Hc. reflexivity. }
  split; [reflexivity|].
  unfold webhook_callback, Telegram.process_reply. cbv zeta. simpl.
  destruct (String.eqb _ ""); reflexivity.
Qed.

Lemma telegram_build_never_runs_witness :
  4242 <> 0 /\ "use rust" <> "" /\
  ((forall action user_text chat_id,
      let '(_, pt', evs) :=
        Telegram.process_reply env_build_ok (tg_store "pending") action "AI-001" user_text chat_id in
      count_builds evs = 0%nat /\
      (pt' = tg_store "pending" \/ pt' = set_status (tg_store "pending") "AI-001" "interesting" \/
       pt' = set_status (tg_store "pending") "AI-001" "filtered")) /\
   Telegram.process_reply env_build_ok (tg_store "pending") "BUILD" "AI-001" None (Some 4242) =
     (Ok (mk_treply true RAskRequirements), tg_store "pending",
      [TLogged (AttributeError "create_pending_build"); TPrompt "AI-001"]) /\
   (forall action,
      Telegram.process_reply env_build_ok (tg_store "pending") action "AI-001" (Some "use rust") (Some 4242) =
        (Raise (AttributeError "get_pending_build"), tg_store "pending", [])) /\
   webhook_callback env_build_ok (tg_store "pending") "BUILD_DEFAULT" "AI-001" =
     (Ok (mk_treply false RUnknownAction), tg_store "pending", []) /\
   webhook_callback env_build_ok (tg_store "pending") "BUILD" "AI-001" =
     (Ok (mk_treply false
            (if String.eqb (match tg_store "pending" !! "AI-001" with Some p => tp_text p | None => "" end) ""
             then RNoText else RBuildError)), tg_store "pending", [])).
Proof.
  split; [lia|]. split; [discriminate|].
  apply (telegram_build_never_runs env_build_ok (tg_store "pending") "AI-001" "use rust" 4242).
  - lia.
  - discriminate.
Defined.

End ReplyClaims.


Module LimiterQueueProofs.
Import RateLimiter LimiterQueue.

Definition score_ge (a b : QueuedTweet) : Prop := q_score b <= q_score a.

Lemma insert_by_score_desc_perm e l : Permutation (insert_by_score_desc e l) (e :: l).
Proof.
  induction l as [|h r IH]; simpl; [reflexivity|].
  destruct (q_score e <=? q_score h); [|reflexivity].
  rewrite IH. apply perm_swap.
Qed.

Lemma sort_by_score_desc_perm l : Permutation (sort_by_score_desc l) l.
Proof.
  unfold sort_by_score_desc.
  assert (forall acc, Permutation (fold_left (fun acc e => insert_by_score_desc e acc) l acc) (l ++ acc))
    as H.
  { induction l as [|e l IH]; intros acc; simpl; [reflexivity|].
    rewrite IH, insert_by_score_desc_perm. symmetry. apply Permutation_middle. }
  rewrite H. by rewrite app_nil_r.
Qed.

Lemma insert_by_score_desc_sorted e l :
  Sorted score_ge l -> Sorted score_ge (insert_by_score_desc e l).
Proof.
  induction 1 as [|h r Hs IH Hhd]; simpl.
  - repeat constructor.
  - destruct (Z.leb_spec (q_score e) (q_score h)) as [Hle|Hgt].
    + constructor; [exact IH|].
      destruct r as [|h2 r]; simpl; [constructor; exact Hle|].
      inversion Hhd; subst.
      destruct (q_score e <=? q_score h2); constructor; unfold score_ge in *; lia.
    + constructor; [constructor; assumption|]. constructor. unfold score_ge. lia.
Qed.

Lemma sort_by_score_desc_sorted l : Sorted score_ge (sort_by_score_desc l).
Proof.
  unfold sort_by_score_desc.
  assert (forall acc, Sorted score_ge acc ->
            Sorted score_ge (fold_left (fun acc e => insert_by_score_desc e acc) l acc)) as H.
  { induction l as [|e l IH]; intros acc Hacc; simpl; [exact Hacc|].
    apply IH. by apply insert_by_score_desc_sorted. }
  apply H. constructor.
Qed.

Lemma sort_by_score_desc_strongly l : StronglySorted score_ge (sort_by_score_desc l).
Proof.
  apply Sorted_StronglySorted; [|apply sort_by_score_desc_sorted].
  intros a b c. unfold score_ge. lia.
Qed.

Lemma strongly_sorted_app {A} (R : A -> A -> Prop) l1 l2 :
  StronglySorted R (l1 ++ l2) -> forall x y, In x l1 -> In y l2 -> R x y.
Proof.
  induction l1 as [|a l1 IH]; simpl; [tauto|].
  intros Hs x y [<-|Hx] Hy; inversion Hs as [|? ? Hs' Hall]; subst.
  - rewrite Forall_forall in Hall. apply Hall. apply list_elem_of_In, in_or_app. by right.
  - by apply IH.
Qed.

Lemma strongly_sorted_head {A} (R : A -> A -> Prop) h l :
  StronglySorted R (h :: l) -> forall y, In y l -> R h y.
Proof.
  intros Hs y Hy. inversion Hs as [|? ? _ Hall]; subst.
  rewrite Forall_forall in Hall. apply Hall. by apply list_elem_of_In.
Qed.

Lemma sum_scores_le (l : list QueuedTweet) (h : Z) :
  (forall e, In e l -> q_score e <= h) -> sum_scores l <= Z.of_nat (length l) * h.
Proof.
  induction l as [|e l IH]; intros Hall; simpl; [unfold sum_scores; simpl; lia|].
  unfold sum_scores in *. simpl.
  assert (q_score e <= h) by (apply Hall; left; done).
  assert (fold_right Z.add 0 (map q_score l) <= Z.of_nat (length l) * h)
    by (apply IH; intros x Hx; apply Hall; right; done).
  rewrite Nat2Z.inj_succ. lia.
Qed.

Lemma drain_batches_concat (max_size : nat) (rounds : nat) :
  forall lim : Limiter,
  let '(bs, lim') := drain_batches lim max_size rounds in
  concat bs ++ queue lim' = queue lim /\ last_notification_time lim' = last_notification_time lim.
Proof.
  induction rounds as [|r IH]; intros lim; simpl; [done|].
  specialize (IH (mk_limiter (last_notification_time lim) (skipn max_size (queue lim)))).
  destruct (drain_batches _ max_size r) as [bs lim2]. simpl in IH |- *.
  destruct IH as [IH1 IH2]. split; [|done].
  rewrite <- app_assoc, IH1. apply firstn_skipn.
Qed.

Lemma drain_batches_empty (max_size : nat) (rounds : nat) :
  (0 < max_size)%nat ->
  forall lim : Limiter, (length (queue lim) <= rounds * max_size)%nat ->
  queue (snd (drain_batches lim max_size rounds)) = [].
Proof.
  intros Hpos. induction rounds as [|r IH]; intros lim Hlen; simpl.
  - destruct (queue lim); simpl in *; [done|lia].
  - specialize (IH (mk_limiter (last_notification_time lim) (skipn max_size (queue lim)))).
    destruct (drain_batches _ max_size r) as [bs lim2] eqn:E. simpl in *.
    apply IH. rewrite length_skipn. lia.
Qed.

End LimiterQueueProofs.

Module LimiterQueueMore.
Import RateLimiter LimiterQueue LimiterQueueProofs.

Lemma strongly_sorted_firstn {A} (R : A -> A -> Prop) n l :
  StronglySorted R l -> StronglySorted R (firstn n l).
Proof.
  revert n. induction l as [|a l IH]; intros n Hs; destruct n; simpl; try constructor.
  - inversion Hs; subst. by apply IH.
  - inversion Hs as [|? ? _ Hall]; subst. by apply Forall_take.
Qed.

Lemma strongly_sorted_map {A B} (R : A -> A -> Prop) (R' : B -> B -> Prop) (f : A -> B) l :
  (forall x y, R x y -> R' (f x) (f y)) -> StronglySorted R l -> StronglySorted R' (map f l).
Proof.
  intros HR. induction 1 as [|a l Hs IH Hall]; simpl; constructor; [exact IH|].
  apply Forall_map. eapply Forall_impl; [exact Hall|]. intros x Hx. by apply HR.
Qed.

Lemma queue_tweet_ids_nodup (lim : Limiter) (e : QueuedTweet) :
  NoDup (map q_tweet_id (queue lim)) ->
  NoDup (map q_tweet_id (queue (snd (queue_tweet lim e)))).
Proof.
  intros Hnd. unfold queue_tweet.
  destruct (existsb (fun x => q_tweet_id x =? q_tweet_id e) (queue lim)) eqn:Hex; [exact Hnd|].
  assert (Hnd' : NoDup (map q_tweet_id (queue lim ++ [e]))).
  { rewrite map_app. apply NoDup_app. split; [exact Hnd|]. split; [|apply NoDup_singleton].
    intros x Hx Hx'. simpl in Hx'. apply list_elem_of_singleton in Hx'. subst x.
    apply list_elem_of_In, in_map_iff in Hx as [y [Hy Hin]].
    assert (existsb (fun x => q_tweet_id x =? q_tweet_id e) (queue lim) = true) as Ht.
    { apply existsb_exists. exists y. split; [exact Hin|]. by apply Z.eqb_eq. }
    congruence. }
  destruct (MAX_QUEUE_SIZE <? _); simpl; [|exact Hnd'].
  destruct (queue lim ++ [e]) as [|x q]; simpl in *; [constructor|].
  by apply NoDup_cons in Hnd' as [_ ?].
Qed.

Lemma run_queue_ids_nodup (entries : list QueuedTweet) :
  forall lim : Limiter, NoDup (map q_tweet_id (queue lim)) ->
  NoDup (map q_tweet_id (queue (run_queue lim entries))).
Proof.
  induction entries as [|e rest IH]; intros lim Hnd; simpl; [exact Hnd|].
  apply IH. by apply queue_tweet_ids_nodup.
Qed.

Lemma drain_batches_bounded (max_size rounds : nat) :
  forall lim : Limiter, Forall (fun b => (length b <= max_size)%nat) (fst (drain_batches lim max_size rounds)).
Proof.
  induction rounds as [|r IH]; intros lim; simpl; [constructor|].
  specialize (IH (mk_limiter (last_notification_time lim) (skipn max_size (queue lim)))).
  destruct (drain_batches _ max_size r) as [bs lim2]. simpl in *.
  constructor; [apply firstn_le_length|exact IH].
Qed.

End LimiterQueueMore.

Module LimiterExtras.
Import RateLimiter LimiterQueue LimiterQueueProofs LimiterQueueMore.

(** [get_queued_summary] is [None] exactly on an empty queue; otherwise it
    counts the queue, lists at most five top tweets by non-increasing
    score, every queued tweet scoring above a listed one is itself listed,
    [highest_score] is the largest queued score, and the mean score does
    not exceed it. *)
Theorem queued_summary_spec (lim : Limiter) :
  (get_queued_summary lim = None <-> queue lim = []) /\
  forall s, get_queued_summary lim = Some s ->
    s_total s = Z.of_nat (length (queue lim)) /\
    length (s_top_tweets s) = Nat.min 5 (length (queue lim)) /\
    Sorted (fun a b => snd b <= snd a) (s_top_tweets s) /\
    (exists e, In e (queue lim) /\ q_score e = s_highest_score s) /\
    (forall e, In e (queue lim) -> q_score e <= s_highest_score s) /\
    (forall e x, In e (queue lim) -> In x (s_top_tweets s) -> snd x < q_score e ->
                 In (q_username e, q_score e) (s_top_tweets s)) /\
    (s_avg_score s <= inject_Z (s_highest_score s))%Q.
Proof.
  unfold get_queued_summary.
  split; [destruct (queue lim); split; congruence|].
  intros s Hs.
  destruct (queue lim) as [|q0 qr] eqn:Hq; [discriminate|].
  set (q := q0 :: qr) in *.
  injection Hs as <-. cbn [s_total s_top_tweets s_avg_score s_highest_score].
  pose proof (sort_by_score_desc_perm q) as Hperm.
  pose proof (sort_by_score_desc_strongly q) as Hss.
  destruct (sort_by_score_desc q) as [|h rest] eqn:Hsort.
  { apply Permutation_nil in Hperm. discriminate. }
  assert (Hin : forall e, In e q -> e = h \/ In e rest).
  { intros e He. apply (Permutation_in _ (Permutation_sym Hperm)) in He. destruct He as [He|He]; [left; done|right; exact He]. }
  assert (Hmax : forall e, In e q -> q_score e <= q_score h).
  { intros e He. destruct (Hin e He) as [->|Hr]; [lia|].
    exact (strongly_sorted_head score_ge h rest Hss e Hr). }
  split; [reflexivity|]. split.
  { rewrite length_map, length_firstn, <- (Permutation_length Hperm). reflexivity. }
  split.
  { apply StronglySorted_Sorted.
    apply (strongly_sorted_map score_ge); [unfold score_ge; simpl; lia|].
    by apply strongly_sorted_firstn. }
  split.
  { exists h. split; [|reflexivity]. apply (Permutation_in _ Hperm). left. done. }
  split; [exact Hmax|]. split.
  { intros e x He Hx Hlt.
    apply in_map_iff in Hx as [y [<- Hy]]. simpl in Hlt.
    apply in_map_iff. exists e. split; [done|].
    apply (Permutation_in _ (Permutation_sym Hperm)) in He.
    rewrite <- (firstn_skipn 5 (h :: rest)) in He, Hss.
    apply in_app_or in He as [He|He]; [exact He|].
    pose proof (strongly_sorted_app score_ge _ _ Hss y e Hy He) as Hge.
    unfold score_ge in Hge. lia. }
  apply Qle_shift_div_r.
  - change 0%Q with (inject_Z 0). rewrite <- Zlt_Qlt. simpl. lia.
  - rewrite <- inject_Z_mult, <- Zle_Qle.
    pose proof (sum_scores_le q (q_score h) Hmax). unfold q in *. simpl length in *. lia.
Qed.

Lemma queued_summary_spec_witness :
  let lim := mk_limiter None [mk_queued "ann" 1 7 0; mk_queued "bo" 2 9 1] in
  (get_queued_summary lim = None <-> queue lim = []) /\
  forall s, get_queued_summary lim = Some s ->
    s_total s = Z.of_nat (length (queue lim)) /\
    length (s_top_tweets s) = Nat.min 5 (length (queue lim)) /\
    Sorted (fun a b => snd b <= snd a) (s_top_tweets s) /\
    (exists e, In e (queue lim) /\ q_score e = s_highest_score s) /\
    (forall e, In e (queue lim) -> q_score e <= s_highest_score s) /\
    (forall e x, In e (queue lim) -> In x (s_top_tweets s) -> snd x < q_score e ->
                 In (q_username e, q_score e) (s_top_tweets s)) /\
    (s_avg_score s <= inject_Z (s_highest_score s))%Q.
Proof. apply (queued_summary_spec (mk_limiter None [mk_queued "ann" 1 7 0; mk_queued "bo" 2 9 1])). Defined.

(** Calling [get_next_batch(k)] repeatedly, with [k > 0], hands out every
    queued entry exactly once and in queue order, at most [k] per call,
    empties the queue after enough calls and leaves the cooldown clock
    alone. *)
Theorem next_batches_drain_in_order (lim : Limiter) (k rounds : nat)
    (Hk : (0 < k)%nat) (Hrounds : (length (queue lim) <= rounds * k)%nat) :
  concat (fst (drain_batches lim k rounds)) = queue lim /\
  queue (snd (drain_batches lim k rounds)) = [] /\
  last_notification_time (snd (drain_batches lim k rounds)) = last_notification_time lim /\
  Forall (fun b => (length b <= k)%nat) (fst (drain_batches lim k rounds)).
Proof.
  pose proof (drain_batches_concat k rounds lim) as Hc.
  pose proof (drain_batches_empty k rounds Hk lim Hrounds) as He.
  pose proof (drain_batches_bounded k rounds lim) as Hb.
  destruct (drain_batches lim k rounds) as [bs lim'] eqn:E. simpl in *.
  destruct Hc as [Hc Ht]. rewrite He, app_nil_r in Hc. auto.
Qed.

Lemma next_batches_drain_in_order_witness :
  let lim := mk_limiter (Some 5) [mk_queued "ann" 1 7 0; mk_queued "bo" 2 9 1; mk_queued "cy" 3 8 2] in
  (0 < 2)%nat /\ (length (queue lim) <= 2 * 2)%nat /\
  concat (fst (drain_batches lim 2 2)) = queue lim /\
  queue (snd (drain_batches lim 2 2)) = [] /\
  last_notification_time (snd (drain_batches lim 2 2)) = last_notification_time lim /\
  Forall (fun b => (length b <= 2)%nat) (fst (drain_batches lim 2 2)).
Proof.
  simpl. split; [lia|]. split; [lia|].
  apply (next_batches_drain_in_order
           (mk_limiter (Some 5) [mk_queued "ann" 1 7 0; mk_queued "bo" 2 9 1; mk_queued "cy" 3 8 2]) 2 2);
    simpl; lia.
Defined.

(** The status dictionary agrees with the admission check: ["in_cooldown"]
    is true exactly when [should_send_notification] says to hold back, and
    ["queue_size"] is the queue's length. *)
Theorem status_agrees_with_admission (lim : Limiter) (now : Z) :
  py_getitem (get_status lim now) "in_cooldown" =
    Ok (PBool (negb (should_send_notification lim now))) /\
  py_getitem (get_status lim now) "queue_size" = Ok (PNum (Z.of_nat (length (queue lim)))).
Proof.
  unfold get_status, should_send_notification, py_getitem.
  destruct (last_notification_time lim) as [last|]; simpl; [|done].
  split; [|done].
  destruct (Z.ltb_spec (now - last) cooldown_us) as [Hlt|Hge]; simpl; do 2 f_equal.
  - apply Z.ltb_lt. lia.
  - apply Z.ltb_ge. lia.
Qed.

(** A tweet id not already queued is always kept by [queue_tweet], at the
    end of the queue after the kept entries in their order (at most the
    oldest one dropped); the returned position is the previous length plus
    one, hence [MAX_QUEUE_SIZE + 1] for a full queue. *)
Theorem queue_tweet_appends_fresh (lim : Limiter) (e : QueuedTweet)
    (Hfresh : existsb (fun x => q_tweet_id x =? q_tweet_id e) (queue lim) = false) :
  fst (queue_tweet lim e) = Z.of_nat (length (queue lim)) + 1 /\
  (exists dropped kept, queue lim = dropped ++ kept /\ (length dropped <= 1)%nat /\
                        queue (snd (queue_tweet lim e)) = kept ++ [e]) /\
  last_notification_time (snd (queue_tweet lim e)) = last_notification_time lim.
Proof.
  unfold queue_tweet. rewrite Hfresh. rewrite length_app. simpl.
  destruct (Z.ltb_spec MAX_QUEUE_SIZE (Z.of_nat (length (queue lim) + 1))) as [Hlt|Hle];
    simpl; (split; [lia|]); (split; [|done]).
  - destruct (queue lim) as [|x q] eqn:Hq; simpl in Hlt; [unfold MAX_QUEUE_SIZE in Hlt; lia|].
    exists [x], q. simpl. auto.
  - exists [], (queue lim). simpl. auto.
Qed.

Lemma queue_tweet_appends_fresh_witness :
  let lim := mk_limiter None (map (fun i => mk_queued "ann" i 8 i) [1; 2; 3; 4; 5; 6; 7; 8; 9; 10]) in
  let e := mk_queued "bo" 11 9 11 in
  existsb (fun x => q_tweet_id x =? q_tweet_id e) (queue lim) = false /\
  fst (queue_tweet lim e) = Z.of_nat (length (queue lim)) + 1 /\
  (exists dropped kept, queue lim = dropped ++ kept /\ (length dropped <= 1)%nat /\
                        queue (snd (queue_tweet lim e)) = kept ++ [e]) /\
  last_notification_time (snd (queue_tweet lim e)) = last_notification_time lim.
Proof.
  simpl. split; [reflexivity|].
  apply (queue_tweet_appends_fresh
           (mk_limiter None (map (fun i => mk_queued "ann" i 8 i) [1; 2; 3; 4; 5; 6; 7; 8; 9; 10]))
           (mk_queued "bo" 11 9 11)).
  reflexivity.
Defined.

(** Starting from a queue without repeated tweet ids, any sequence of
    [queue_tweet] admissions keeps the queued tweet ids pairwise distinct. *)
Theorem queue_ids_stay_distinct (lim : Limiter) (entries : list QueuedTweet)
    (Hnd : NoDup (map q_tweet_id (queue lim))) :
  NoDup (map q_tweet_id (queue (run_queue lim entries))).
Proof. by apply run_queue_ids_nodup. Qed.

Lemma queue_ids_stay_distinct_witness :
  NoDup (map q_tweet_id (queue (mk_limiter None []))) /\
  NoDup (map q_tweet_id (queue (run_queue (mk_limiter None [])
           [mk_queued "ann" 1 8 0; mk_queued "bo" 1 9 1; mk_queued "cy" 2 9 2]))).
Proof.
  split; [constructor|].
  apply (queue_ids_stay_distinct (mk_limiter None [])). constructor.
Defined.

End LimiterExtras.

Module WhatsAppProofs.
Import WhatsApp.

Lemma is_space_upper c : is_space (ascii_upper c) = is_space c.
Proof. destruct c as [[] [] [] [] [] [] [] []]; reflexivity. Qed.

Lemma ascii_upper_idem c : ascii_upper (ascii_upper c) = ascii_upper c.
Proof. destruct c as [[] [] [] [] [] [] [] []]; reflexivity. Qed.

Lemma upper_idem s : upper (upper s) = upper s.
Proof. induction s as [|c s IH]; simpl; [done|]. by rewrite ascii_upper_idem, IH. Qed.

Lemma upper_empty s : String.eqb (upper s) "" = String.eqb s "".
Proof. by destruct s. Qed.

Lemma upper_lstrip s : upper (lstrip s) = lstrip (upper s).
Proof.
  induction s as [|c s IH]; simpl; [done|].
  rewrite is_space_upper. by destruct (is_space c).
Qed.

Lemma upper_rstrip s : upper (rstrip s) = rstrip (upper s).
Proof.
  induction s as [|c s IH]; simpl; [done|].
  rewrite is_space_upper, <- IH, upper_empty.
  by destruct (is_space c && String.eqb (rstrip s) "").
Qed.

Lemma rstrip_idem s : rstrip (rstrip s) = rstrip s.
Proof.
  induction s as [|c s IH]; simpl; [done|].
  destruct (is_space c && String.eqb (rstrip s) "") eqn:E; [done|].
  simpl. rewrite IH, E. done.
Qed.

Definition head_not_space (s : string) : Prop :=
  match s with String c _ => is_space c = false | EmptyString => True end.

Lemma lstrip_head s : head_not_space (lstrip s).
Proof.
  induction s as [|c s IH]; simpl; [done|].
  destruct (is_space c) eqn:E; [done|]. simpl. done.
Qed.

Lemma lstrip_rstrip_fix s : head_not_space s -> lstrip (rstrip s) = rstrip s.
Proof.
  destruct s as [|c s]; simpl; [done|]. intros Hc.
  rewrite Hc. simpl. by rewrite Hc.
Qed.

Lemma lstrip_idem s : lstrip (lstrip s) = lstrip s.
Proof.
  pose proof (lstrip_head s) as H. destruct (lstrip s) as [|c r]; simpl in *; [done|].
  by rewrite H.
Qed.

Lemma strip_upper_idem s : strip_upper (strip_upper s) = strip_upper s.
Proof.
  unfold strip_upper.
  rewrite <- upper_lstrip, <- upper_rstrip, upper_idem.
  rewrite lstrip_rstrip_fix by apply lstrip_head.
  by rewrite rstrip_idem.
Qed.

Lemma parse_action_strip_upper s : parse_action (strip_upper s) = parse_action s.
Proof. unfold parse_action. by rewrite strip_upper_idem. Qed.

Lemma rstrip_app_space s c : is_space c = true -> rstrip (s ++ String c "") = rstrip s.
Proof.
  intros Hc. induction s as [|d s IH]; simpl.
  - by rewrite Hc.
  - by rewrite IH.
Qed.

Lemma rstrip_lstrip_app_space s c :
  is_space c = true -> rstrip (lstrip (s ++ String c "")) = rstrip (lstrip s).
Proof.
  intros Hc. induction s as [|d s IH]; simpl.
  - by rewrite Hc.
  - destruct (is_space d) eqn:Hd; [done|].
    change (String d (String.append s (String c ""))) with (String.append (String d s) (String c "")).
    by apply rstrip_app_space.
Qed.

Lemma strip_upper_upper s : strip_upper (upper s) = strip_upper s.
Proof.
  unfold strip_upper. rewrite <- upper_lstrip, <- upper_rstrip. apply upper_idem.
Qed.

End WhatsAppProofs.

Module WhatsAppStoreProofs.
Import Scheduler WhatsApp WhatsAppStore.

Lemma fold_delete_lookup {V} (ks : list string) (m : gmap string V) (k : string) :
  fold_left (fun m p => delete p m) ks m !! k = if in_dec String.string_dec k ks then None else m !! k.
Proof.
  revert m. induction ks as [|p ks IH]; intros m; [done|]. cbn [fold_left].
  rewrite IH.
  destruct (in_dec String.string_dec k ks) as [Hin|Hnin].
  - destruct (in_dec String.string_dec k (p :: ks)) as [_|Hn]; [done|].
    exfalso. apply Hn. by right.
  - destruct (String.string_dec p k) as [->|Hne].
    + rewrite lookup_delete_eq.
      destruct (in_dec String.string_dec k (k :: ks)) as [_|Hn]; [done|].
      exfalso. apply Hn. by left.
    + rewrite lookup_delete_ne by exact Hne.
      destruct (in_dec String.string_dec k (p :: ks)) as [[Heq|Hi]|_]; [congruence|tauto|done].
Qed.

Lemma in_expired (st : gmap string WStored) now max k :
  In k (map fst (List.filter (fun kv => is_expired now max (snd kv)) (map_to_list st))) <->
  exists d, st !! k = Some d /\ is_expired now max d = true.
Proof.
  rewrite in_map_iff. split.
  - intros [[k' d] [Hk Hin]]. simpl in Hk. subst k'.
    apply filter_In in Hin as [Hin Hexp].
    exists d. split; [|done].
    apply elem_of_map_to_list. by apply list_elem_of_In.
  - intros (d & Hd & Hexp). exists (k, d). split; [done|].
    apply filter_In. split; [|done].
    apply list_elem_of_In. by apply elem_of_map_to_list.
Qed.

Lemma cleanup_expired_lookup (st : gmap string WStored) (now max_age_minutes : Z) (k : string) :
  cleanup_expired st now max_age_minutes !! k =
    match st !! k with
    | Some d => if max_age_minutes * 60000000 <? now - ws_sent_at d then None else Some d
    | None => None
    end.
Proof.
  unfold cleanup_expired. rewrite fold_delete_lookup.
  destruct (in_dec String.string_dec k _) as [Hin|Hnin].
  - apply in_expired in Hin as (d & Hd & He). rewrite Hd.
    unfold is_expired in He. by rewrite He.
  - destruct (st !! k) as [d|] eqn:Hd; [|done].
    destruct (max_age_minutes * 60000000 <? now - ws_sent_at d) eqn:He; [|done].
    exfalso. apply Hnin. apply in_expired. exists d. by split.
Qed.

End WhatsAppStoreProofs.

Module WhatsAppExtras.
Import Scheduler WhatsApp WhatsAppStore WhatsAppProofs WhatsAppStoreProofs.

(** The action read from a reply does not depend on the letter case of the
    reply, nor on whitespace added before or after it. *)
Theorem parse_action_ignores_case_and_padding (s : string) (c : Ascii.ascii)
    (Hc : is_space c = true) :
  parse_action (upper s) = parse_action s /\
  parse_action (String c s) = parse_action s /\
  parse_action (String.append s (String c "")) = parse_action s.
Proof.
  unfold parse_action. repeat split.
  - by rewrite strip_upper_upper.
  - unfold strip_upper. simpl. by rewrite Hc.
  - unfold strip_upper. by rewrite rstrip_lstrip_app_space.
Qed.

Lemma parse_action_ignores_case_and_padding_witness :
  WhatsApp.is_space (Ascii.ascii_of_nat 32) = true /\
  parse_action (upper "build") = parse_action "build" /\
  parse_action (String (Ascii.ascii_of_nat 32) "build") = parse_action "build" /\
  parse_action (String.append "build" (String (Ascii.ascii_of_nat 32) "")) = parse_action "build".
Proof.
  split; [reflexivity|].
  apply (parse_action_ignores_case_and_padding "build" (Ascii.ascii_of_nat 32)). reflexivity.
Defined.

(** A reply never adds or changes a pending entry: the pending map is either
    unchanged, or the phone's entry is dropped, which happens only when the
    phone had a pending tweet, the reply asks for a build and the build
    reports failure. *)
Theorem reply_only_drops_after_failed_build env st phone text :
  let '(_, st', _) := WhatsApp.process_reply env st phone text in
  st' = st \/
  (st' = delete phone st /\ is_Some (st !! phone) /\
   parse_action text = ABuild /\ build_result env = Ok false).
Proof.
  unfold WhatsApp.process_reply. rewrite parse_action_strip_upper.
  destruct (st !! phone) as [p|] eqn:Hp; [|by left].
  destruct (parse_action text) eqn:Ha.
  - destruct (negb (interesting_webhook env)); [by left|].
    destruct (discord_send env); by left.
  - by left.
  - destruct (build_result env) as [[|]|e] eqn:Hb; try by left.
    right. split; [done|]. split; [by eexists|]. done.
  - by left.
Qed.

(** [cleanup_expired] removes exactly the entries older than the limit and
    keeps every other entry as it was. *)
Theorem cleanup_expired_spec (st : gmap string WStored) (now max_age_minutes : Z) (k : string) :
  cleanup_expired st now max_age_minutes !! k =
    match st !! k with
    | Some d => if max_age_minutes * 60000000 <? now - ws_sent_at d then None else Some d
    | None => None
    end.
Proof. apply cleanup_expired_lookup. Qed.

(** A tweet just stored for a phone by [store_pending_tweet] is still
    pending after [cleanup_expired] until more than [max_age_minutes] have
    passed since it was stored, and is gone after that. *)
Theorem stored_tweet_survives_until_expiry (st : gmap string WStored) phone username
    (tweet : Tweet) (score t0 now max_age_minutes : Z) :
  cleanup_expired (store_pending_tweet st phone username tweet score t0) now max_age_minutes !! phone =
    if max_age_minutes * 60000000 <? now - t0 then None
    else Some (mk_wstored (mk_wpending username (t_id tweet) (t_text tweet) score) t0 "pending").
Proof.
  rewrite cleanup_expired_lookup. unfold store_pending_tweet.
  by rewrite lookup_insert_eq.
Qed.

End WhatsAppExtras.

Module TelegramIdProofs.
Import Telegram TelegramIds.

Fixpoint no_dash (s : string) : Prop :=
  match s with
  | EmptyString => True
  | String c r => c <> "-"%char /\ no_dash r
  end.

Definition lead_digit (s : string) : Prop :=
  match s with
  | String c _ => c <> "0"%char
  | EmptyString => False
  end.

Lemma pretty_N_go_no_dash x s : no_dash s -> no_dash (pretty_N_go x s).
Proof.
  revert s. induction (N.lt_wf_0 x) as [x _ IH]; intros s Hs.
  assert (x = 0 \/ 0 < x)%N as [->|Hx] by lia.
  - by rewrite pretty_N_go_0.
  - rewrite pretty_N_go_step by done. apply IH; [by apply N.div_lt|].
    split; [|done]. unfold pretty_N_char. by repeat case_match.
Qed.

Lemma pretty_no_dash (x : N) : no_dash (pretty x).
Proof.
  unfold pretty, pretty_N. case_decide; [simpl; split; [discriminate|done]|].
  by apply pretty_N_go_no_dash.
Qed.

Lemma pretty_N_go_lead x s : (0 < x)%N -> lead_digit (pretty_N_go x s).
Proof.
  revert s. induction (N.lt_wf_0 x) as [x _ IH]; intros s Hx.
  rewrite pretty_N_go_step by done.
  destruct (N.eq_0_gt_0_cases (x `div` 10)%N) as [H0|Hpos].
  - rewrite H0, pretty_N_go_0. simpl.
    assert (x < 10)%N as Hlt.
    { apply N.div_small_iff in H0; lia. }
    rewrite N.mod_small by done.
    assert (x = 1 \/ x = 2 \/ x = 3 \/ x = 4 \/ x = 5 \/ x = 6
          \/ x = 7 \/ x = 8 \/ x = 9)%N as Hc by lia.
    by repeat destruct Hc as [->|Hc]; try (subst; discriminate).
  - apply IH; [by apply N.div_lt|done].
Qed.

Lemma pretty_lead (x : N) : (0 < x)%N -> lead_digit (pretty x).
Proof.
  intros Hx. unfold pretty, pretty_N. case_decide; [lia|].
  by apply pretty_N_go_lead.
Qed.

Lemma no_dash_pad3 s : no_dash s -> no_dash (pad3 s).
Proof.
  unfold pad3. intros Hs.
  destruct (String.length s) as [|[|[|]]]; simpl; try done;
    repeat split; try discriminate; done.
Qed.

Lemma pad3_inj a b : lead_digit a -> lead_digit b -> pad3 a = pad3 b -> a = b.
Proof.
  unfold pad3.
  destruct a as [|a1 [|a2 [|a3 ar]]]; simpl; [done| | |];
  destruct b as [|b1 [|b2 [|b3 br]]]; simpl; try done;
  intros Ha Hb Heq; inversion Heq; subst; congruence.
Qed.

Lemma no_dash_app_dash r t : ~ no_dash (String.append r (String "-" t)).
Proof.
  induction r as [|c r IH]; simpl.
  - intros [H _]. by apply H.
  - intros [_ H]. by apply IH.
Qed.

Lemma split_dash c c' d d' :
  no_dash d -> no_dash d' ->
  String.append c (String "-" d) = String.append c' (String "-" d') -> c = c' /\ d = d'.
Proof.
  intros Hd Hd'. revert c'.
  induction c as [|x c IH]; intros [|x' c'] Heq; simpl in Heq.
  - by inversion Heq.
  - inversion Heq; subst. exfalso. by apply (no_dash_app_dash c' d').
  - inversion Heq; subst. exfalso. by apply (no_dash_app_dash c d).
  - inversion Heq; subst. destruct (IH c' H1) as [-> ->]. done.
Qed.

Lemma format_id_inj c c' n n' :
  1 <= n -> 1 <= n' -> format_id c n = format_id c' n' -> c = c' /\ n = n'.
Proof.
  intros Hn Hn' Heq. unfold format_id in Heq. simpl in Heq.
  apply split_dash in Heq as [-> Hp]; [|apply no_dash_pad3, pretty_no_dash..].
  split; [done|].
  apply pad3_inj in Hp; [|apply pretty_lead; lia..].
  apply (inj pretty) in Hp. lia.
Qed.

End TelegramIdProofs.

Module TelegramPendingProofs.
Import Telegram TelegramIds TelegramIdProofs.

Definition counters_ok (g : IdGen) : Prop :=
  map_Forall (fun _ v => 0 <= v) (category_counters g).

(** Every id in [ids] was issued for a category whose counter has reached it. *)
Definition issued (g : IdGen) (ids : list string) : Prop :=
  Forall (fun k => exists c n m, k = format_id c n /\ category_counters g !! c = Some m /\ 1 <= n <= m) ids.

Lemma generate_tweet_id_eq g category :
  generate_tweet_id g category =
    let c := String.substring 0 10 (WhatsApp.upper category) in
    let n := default 0 (category_counters g !! c) + 1 in
    (format_id c n, mk_idgen (<[c := n]> (category_counters g)) (global_counter g + 1)).
Proof.
  unfold generate_tweet_id. simpl.
  destruct (category_counters g !! _) as [m|] eqn:Hm.
  - by rewrite Hm.
  - rewrite lookup_insert_eq. simpl. by rewrite insert_insert_eq.
Qed.

Lemma generate_tweet_id_fresh g category ids :
  counters_ok g -> issued g ids ->
  let '(k, g') := generate_tweet_id g category in
  counters_ok g' /\ issued g' (k :: ids) /\ ~ In k ids.
Proof.
  intros Hok Hiss. rewrite generate_tweet_id_eq. cbv zeta.
  set (c := String.substring 0 10 (WhatsApp.upper category)).
  set (m0 := default 0 (category_counters g !! c)).
  assert (Hm0 : 0 <= m0).
  { unfold m0. destruct (category_counters g !! c) eqn:E; simpl; [|lia]. by apply (Hok c). }
  split; [|split].
  - unfold counters_ok. simpl. apply map_Forall_insert_2; [lia|done].
  - constructor.
    + exists c, (m0 + 1), (m0 + 1). simpl. rewrite lookup_insert_eq. split; [done|]. split; [done|]. lia.
    + eapply Forall_impl; [exact Hiss|].
      intros k (c' & n' & m' & -> & Hm' & Hn'). simpl.
      destruct (decide (c' = c)) as [->|Hne].
      * exists c, n', (m0 + 1). rewrite lookup_insert_eq. split; [done|]. split; [done|].
        unfold m0 in *. rewrite Hm' in *. simpl in *. lia.
      * exists c', n', m'. rewrite lookup_insert_ne by congruence. done.
  - intros Hin. unfold issued in Hiss. rewrite Forall_forall in Hiss. rewrite <- list_elem_of_In in Hin. apply Hiss in Hin as (c' & n' & m' & Heq & Hm' & Hn').
    apply format_id_inj in Heq as [<- <-]; [|lia|lia].
    unfold m0 in *. rewrite Hm' in *. simpl in *. lia.
Qed.

Lemma generate_ids_nodup categories : forall g ids,
  counters_ok g -> issued g ids -> NoDup ids ->
  NoDup (fst (generate_ids g categories) ++ ids).
Proof.
  induction categories as [|cat rest IH]; intros g ids Hok Hiss Hnd; [exact Hnd|]. cbn [generate_ids].
  pose proof (generate_tweet_id_fresh g cat ids Hok Hiss) as Hstep.
  destruct (generate_tweet_id g cat) as [k g1].
  destruct Hstep as (Hok1 & Hiss1 & Hfresh).
  assert (Hnd1 : NoDup (k :: ids)) by (apply NoDup_cons; split; [rewrite list_elem_of_In|]; done).
  specialize (IH g1 (k :: ids) Hok1 Hiss1 Hnd1).
  destruct (generate_ids g1 rest) as [ks g2]. simpl in *.
  assert (Hp : k :: ks ++ ids ≡ₚ ks ++ k :: ids) by apply Permutation_middle.
  by rewrite Hp.
Qed.

Definition pendingb (p : TPending) : bool := String.eqb (tp_status p) "pending".

Lemma pending_count_insert_fresh (pt : gmap string TPending) a v :
  pt !! a = None ->
  get_pending_count (<[a := v]> pt) = ((if pendingb v then 1 else 0) + get_pending_count pt)%nat.
Proof.
  intros Ha. unfold get_pending_count.
  pose proof (map_to_list_insert pt a v Ha) as Hp.
  assert (forall l l' : list (string * TPending), l ≡ₚ l' ->
            length (List.filter pendingb (map snd l)) = length (List.filter pendingb (map snd l'))) as Hperm.
  { intros l l' H. induction H; simpl; try lia.
    - by destruct (pendingb (snd x)); simpl; rewrite IHPermutation.
    - by destruct (pendingb (snd x)), (pendingb (snd y)). }
  unfold pendingb in Hperm. rewrite (Hperm _ _ Hp). simpl.
  unfold pendingb. by destruct (String.eqb (tp_status v) "pending").
Qed.

Lemma pending_count_replace (pt : gmap string TPending) a p v :
  pt !! a = Some p ->
  ((if pendingb p then 1 else 0) + get_pending_count (<[a := v]> pt) =
   (if pendingb v then 1 else 0) + get_pending_count pt)%nat.
Proof.
  intros Ha.
  rewrite <- (insert_delete_id pt a p Ha) at 2.
  rewrite <- (insert_delete_eq pt a v).
  rewrite !pending_count_insert_fresh by apply lookup_delete_eq. lia.
Qed.

End TelegramPendingProofs.

Module TelegramSendProofs.
Import Telegram TelegramIds TelegramIdProofs TelegramPendingProofs.

Lemma run_sends_inv enabled reqs : forall g pt all succ,
  counters_ok g -> issued g all -> NoDup all ->
  (forall a, is_Some (pt !! a) <-> In a succ) ->
  (forall a, In a succ -> In a all) -> NoDup succ ->
  get_pending_count pt = length succ ->
  let '(res, _, pt') := run_sends enabled g pt reqs in
  NoDup (succ ++ omap id res) /\
  (forall a, is_Some (pt' !! a) <-> In a (succ ++ omap id res)) /\
  get_pending_count pt' = length (succ ++ omap id res).
Proof.
  induction reqs as [|r rest IH]; intros g pt all succ Hok Hiss Hnd Hkeys Hsub Hnds Hcnt.
  { simpl. rewrite !app_nil_r. done. }
  cbn [run_sends]. unfold send_urgent_tweet.
  destruct enabled; cbn [negb].
  - pose proof (generate_tweet_id_fresh g (sr_category r) all Hok Hiss) as Hstep.
    destruct (generate_tweet_id g (sr_category r)) as [k g1].
    destruct Hstep as (Hok1 & Hiss1 & Hfresh).
    assert (Hnd1 : NoDup (k :: all)) by (apply NoDup_cons; split; [rewrite list_elem_of_In|]; done).
    assert (Hk : pt !! k = None).
    { destruct (pt !! k) eqn:E; [|done]. exfalso. apply Hfresh, Hsub, Hkeys. by rewrite E. }
    destruct (sr_delivered r).
    + set (v := mk_tpending (sr_username r) (sr_text r) (sr_score r) (sr_category r) (sr_reason r) "pending").
      specialize (IH g1 (<[k := v]> pt) (k :: all) (succ ++ [k]) Hok1 Hiss1 Hnd1).
      destruct (run_sends true g1 (<[k := v]> pt) rest) as [[res g2] pt2].
      replace (omap id (Some k :: res)) with (k :: omap id res) by reflexivity.
      replace (succ ++ k :: omap id res) with ((succ ++ [k]) ++ omap id res)
        by (rewrite <- app_assoc; done).
      apply IH.
      * intros a. rewrite lookup_insert_is_Some, in_app_iff, <- Hkeys. simpl.
        destruct (decide (k = a)); naive_solver.
      * intros a. rewrite in_app_iff. intros [Ha|[<-|[]]]; [right; by apply Hsub|by left].
      * apply NoDup_app. split; [done|]. split; [|apply NoDup_singleton].
        intros x Hx Hx'. apply list_elem_of_singleton in Hx'. subst x.
        apply list_elem_of_In in Hx. by apply Hfresh, Hsub.
      * rewrite pending_count_insert_fresh by done. rewrite length_app, Hcnt. simpl. lia.
    + specialize (IH g1 pt (k :: all) succ Hok1 Hiss1 Hnd1 Hkeys).
      destruct (run_sends true g1 pt rest) as [[res g2] pt2].
      apply IH; [|done|done]. intros a Ha. right. by apply Hsub.
  - specialize (IH g pt all succ Hok Hiss Hnd Hkeys Hsub Hnds Hcnt).
    destruct (run_sends false g pt rest) as [[res g2] pt2].
    exact IH.
Qed.

End TelegramSendProofs.

Module TelegramExtras.
Import Telegram TelegramIds TelegramIdProofs TelegramPendingProofs TelegramSendProofs.

Lemma set_status_pending_count pt a s :
  String.eqb s "pending" = false ->
  (get_pending_count (set_status pt a s) +
     match pt !! a with Some p => if pendingb p then 1 else 0 | None => 0 end =
   get_pending_count pt)%nat.
Proof.
  intros Hs. unfold set_status. destruct (pt !! a) as [p|] eqn:Ha; [|lia].
  pose proof (pending_count_replace pt a p
    (mk_tpending (tp_username p) (tp_text p) (tp_score p) (tp_category p) (tp_reason p) s) Ha) as H.
  unfold pendingb in H at 2. simpl in H. rewrite Hs in H. lia.
Qed.

(** The alert ids [_generate_tweet_id] hands out are pairwise distinct:
    two calls never return the same id, whatever the categories. *)
Theorem generated_alert_ids_distinct (categories : list string) :
  NoDup (fst (generate_ids init_idgen categories)).
Proof.
  pose proof (generate_ids_nodup categories init_idgen [] ) as H.
  rewrite app_nil_r in H. apply H.
  - unfold counters_ok. simpl. apply map_Forall_empty.
  - constructor.
  - constructor.
Qed.

(** Along any run of [send_urgent_tweet] on a fresh bot, no stored alert is
    overwritten: the ids of the delivered alerts are distinct, they are
    exactly the keys of [pending_tweets], and [get_pending_count] equals
    the number of delivered alerts. *)
Theorem sent_alerts_all_pending (enabled : bool) (reqs : list SendReq) :
  let '(res, _, pt) := run_sends enabled init_idgen ∅ reqs in
  NoDup (omap id res) /\
  (forall a, is_Some (pt !! a) <-> In a (omap id res)) /\
  get_pending_count pt = length (omap id res).
Proof.
  pose proof (run_sends_inv enabled reqs init_idgen ∅ [] []) as H.
  destruct (run_sends enabled init_idgen ∅ reqs) as [[res g] pt].
  apply H.
  - unfold counters_ok. simpl. apply map_Forall_empty.
  - constructor.
  - constructor.
  - intros a. rewrite lookup_empty. split; [intros [? ?]; discriminate|intros []].
  - intros a [].
  - constructor.
  - reflexivity.
Qed.

(** A button press never raises the number of pending alerts; an
    INTERESTING or NOTHING press lowers it by one exactly when the alert
    was still pending. *)
Theorem button_press_pending_count (env : TEnv) (pt : gmap string TPending) (action a : string) :
  let pt' := snd (fst (webhook_callback env pt action a)) in
  (get_pending_count pt' <= get_pending_count pt)%nat /\
  ((String.eqb action "INTERESTING" || String.eqb action "NOTHING") = true ->
   (get_pending_count pt' +
      match pt !! a with Some p => if pendingb p then 1 else 0 | None => 0 end =
    get_pending_count pt)%nat).
Proof.
  unfold webhook_callback, process_reply. cbv zeta. cbn [text_truthy andb].
  destruct (String.eqb action "INTERESTING") eqn:E1; cbn [fst snd orb].
  { pose proof (set_status_pending_count pt a "interesting" eq_refl). split; [lia|done]. }
  destruct (String.eqb action "NOTHING") eqn:E2; cbn [fst snd orb].
  { pose proof (set_status_pending_count pt a "filtered" eq_refl). split; [lia|done]. }
  split; [|discriminate].
  destruct (String.eqb action "BUILD"); cbn [fst snd chat_truthy]; [|lia].
  destruct (String.eqb _ ""); cbn [fst snd]; [lia|].
  unfold import_build_agent. cbn [fst snd]. lia.
Qed.

Definition tenv0 : TEnv := mk_tenv (fun _ => Ok true).

Definition pt0 : gmap string TPending :=
  <[ "AI-001" := mk_tpending "alice" "new model" 9 "AI" "fast" "pending" ]> ∅.

Lemma button_press_pending_count_witness :
  (String.eqb "NOTHING" "INTERESTING" || String.eqb "NOTHING" "NOTHING") = true /\
  (get_pending_count (snd (fst (webhook_callback tenv0 pt0 "NOTHING" "AI-001"))) + 1 =
   get_pending_count pt0)%nat.
Proof.
  split; [reflexivity|].
  apply (proj2 (button_press_pending_count tenv0 pt0 "NOTHING" "AI-001")).
  reflexivity.
Defined.

End TelegramExtras.

Module CatalogProofs.
Import Database Scheduler Catalog.

Lemma channel_by_name_Some st name id ch :
  channel_by_name st name = Some (id, ch) -> channels st !! id = Some ch /\ ch_name ch = name.
Proof.
  unfold channel_by_name. intros H.
  assert (Hin : In (id, ch) (List.filter (fun kv => String.eqb (ch_name (snd kv)) name)
                                          (map_to_list (channels st)))).
  { destruct (List.filter _ _) as [|x l]; simpl in H; [discriminate|]. injection H as ->. by left. }
  apply filter_In in Hin as [Hin Heq]. simpl in Heq.
  split; [|by apply String.eqb_eq].
  apply elem_of_map_to_list. by apply list_elem_of_In.
Qed.

Lemma channel_by_name_None st name :
  channel_by_name st name = None <-> forall id ch, channels st !! id = Some ch -> ch_name ch <> name.
Proof.
  unfold channel_by_name. split.
  - intros H id ch Hch Hn.
    assert (Hin : In (id, ch) (List.filter (fun kv => String.eqb (ch_name (snd kv)) name)
                                            (map_to_list (channels st)))).
    { apply filter_In. split; [|simpl; by apply String.eqb_eq].
      apply list_elem_of_In. by apply elem_of_map_to_list. }
    destruct (List.filter _ _); [done|discriminate].
  - intros H. destruct (List.filter _ _) as [|[id ch] l] eqn:E; [done|].
    exfalso.
    assert (Hin : In (id, ch) (List.filter (fun kv => String.eqb (ch_name (snd kv)) name)
                                            (map_to_list (channels st)))) by (rewrite E; by left).
    apply filter_In in Hin as [Hin Heq]. simpl in Heq.
    apply (H id ch); [|by apply String.eqb_eq].
    apply elem_of_map_to_list. by apply list_elem_of_In.
Qed.

Lemma in_active_join st row :
  In row (active_join st) <->
  exists r ch, users st !! a_username row = Some r /\ u_is_active r = true /\
               channels st !! u_channel_id r = Some ch /\
               row = mk_active_row (a_username row) (u_channel_id r) (u_last_tweet_id r) true
                                   (ch_name ch) (ch_webhook_url ch).
Proof.
  unfold active_join. rewrite <- list_elem_of_In, list_elem_of_omap. split.
  - intros ([u r] & Hin & Hf). apply elem_of_map_to_list in Hin.
    destruct (u_is_active r) eqn:Ha; [|discriminate].
    destruct (channels st !! u_channel_id r) as [ch|] eqn:Hc; [|discriminate].
    injection Hf as <-. simpl. exists r, ch. done.
  - intros (r & ch & Hu & Ha & Hc & ->). exists (a_username row, r). split.
    + by apply elem_of_map_to_list.
    + simpl. by rewrite Ha, Hc.
Qed.

Lemma in_joined_users st keep row :
  In row (joined_users st keep) <->
  exists r ch, users st !! lu_username row = Some r /\ channels st !! u_channel_id r = Some ch /\
               keep (u_channel_id r) = true /\
               row = mk_listed_user (lu_username row) (ch_name ch) (u_last_tweet_id r) (u_is_active r).
Proof.
  unfold joined_users. rewrite <- list_elem_of_In, list_elem_of_omap. split.
  - intros ([u r] & Hin & Hf). apply elem_of_map_to_list in Hin.
    destruct (channels st !! u_channel_id r) as [ch|] eqn:Hc; [|discriminate].
    destruct (keep (u_channel_id r)) eqn:Hk; [|discriminate].
    injection Hf as <-. simpl. exists r, ch. done.
  - intros (r & ch & Hu & Hc & Hk & ->). exists (lu_username row, r). split.
    + by apply elem_of_map_to_list.
    + simpl. by rewrite Hc, Hk.
Qed.

Lemma delete_channel_lookup st name id ch :
  channels (snd (delete_channel false st name)) !! id = Some ch <->
  channels st !! id = Some ch /\ ch_name ch <> name.
Proof. simpl. by rewrite map_lookup_filter_Some. Qed.

End CatalogProofs.

Module CatalogExtras.
Import Database Scheduler Catalog CatalogProofs.

(** Called from the API, every database method sees the running event loop
    and returns its fallback: no endpoint reads or changes the catalog.
    POST /api/channels answers success with id 0, POST /api/users answers
    404, both DELETE endpoints answer 500, and the listings are empty. *)
Theorem api_endpoints_inert (st : Catalog) (name webhook_url username channel_name : string)
    (fetched : outcome (list Tweet)) (channel : option string) (running : bool) :
  api_create_channel st name webhook_url = (ApiOk (BChannelCreated 0), st) /\
  api_create_user st username channel_name fetched = (ApiError 404, st) /\
  api_delete_channel st name = (ApiError 500, st) /\
  api_delete_user st username = (ApiError 500, st) /\
  api_get_channels st = (ApiOk (BChannels []), st) /\
  api_get_users st channel = (ApiOk (BUsers []), st) /\
  api_get_status running st = (ApiOk (BStatus running 0 0), st).
Proof. repeat split. Qed.

(** No method or command adds a channel or a monitored user: [create_channel]
    and [add_user] roll their INSERT back, [user add] fails on [channel.id]
    before calling [add_user].  [channel create] reports the next sequence
    id, the same on every call, unless a channel of that name exists. *)
Theorem creation_never_persists (loop_running : bool) (st : Catalog)
    (name webhook_url username channel_name : string) (channel_id : Z) (last : option Z)
    (key_set : bool) (fetched : outcome (list Tweet)) :
  snd (create_channel loop_running st name webhook_url) = st /\
  snd (add_user loop_running st username channel_id last) = st /\
  snd (cli_channel_create st name webhook_url) = st /\
  snd (cli_user_add st username channel_name key_set fetched) = st /\
  fst (cli_channel_create st name webhook_url) =
    match channel_by_name st name with
    | Some _ => CliAlreadyExists
    | None => CliCreated (channel_seq st + 1)
    end /\
  fst (cli_user_add st username channel_name key_set fetched) <> CliAdded.
Proof.
  unfold cli_channel_create, cli_user_add, create_channel, add_user, get_channel_by_name.
  split. { destruct loop_running; [done|]. by destruct (channel_by_name st name). }
  split. { destruct loop_running; [done|]. by destruct (users st !! username). }
  split. { destruct (channel_by_name st name); reflexivity. }
  split. { destruct key_set; [|done]. simpl.
           destruct (channel_by_name st channel_name); [|done]. by destruct fetched. }
  split. { destruct (channel_by_name st name); reflexivity. }
  destruct key_set; simpl; [|discriminate].
  destruct (channel_by_name st channel_name); [|discriminate]. by destruct fetched.
Qed.

(** Outside an event loop both delete methods answer [True] whether or not
    the row existed, so the CLI never reports "not found"; afterwards no
    channel (resp. user) of that name is left and every other row is kept. *)
Theorem deletes_always_report_success (st : Catalog) (name username : string) :
  fst (delete_channel false st name) = true /\
  get_channel_by_name false (snd (delete_channel false st name)) name = None /\
  (forall id ch, channels (snd (delete_channel false st name)) !! id = Some ch <->
                 channels st !! id = Some ch /\ ch_name ch <> name) /\
  cat_db (snd (delete_channel false st name)) = cat_db st /\
  fst (remove_user false st username) = true /\
  users (snd (remove_user false st username)) = delete username (users st) /\
  channels (snd (remove_user false st username)) = channels st /\
  fst (cli_channel_delete st name) = CliDeleted /\
  fst (cli_user_remove st username) = CliRemoved.
Proof.
  split; [done|]. split.
  { unfold get_channel_by_name. apply channel_by_name_None.
    intros id ch Hch. apply delete_channel_lookup in Hch. tauto. }
  split; [apply delete_channel_lookup|].
  repeat split.
Qed.

(** Deleting a channel leaves its users in [monitored_users] (foreign keys
    are not enforced), but they no longer appear in
    [get_active_users_with_channels], so no cycle would watch them again. *)
Theorem deleted_channel_orphans_users (st : Catalog) (name u : string) (r : user_row) (ch : channel_row)
    (Hu : users st !! u = Some r)
    (Hch : channels st !! u_channel_id r = Some ch)
    (Hname : ch_name ch = name) :
  users (snd (delete_channel false st name)) !! u = Some r /\
  forall row, In row (get_active_users_with_channels false (snd (delete_channel false st name))) ->
              a_username row <> u.
Proof.
  split; [done|].
  intros row Hin Heq. unfold get_active_users_with_channels in Hin.
  apply in_active_join in Hin as (r' & ch' & Hu' & _ & Hc' & _).
  rewrite Heq in Hu'. unfold users in Hu'. simpl in Hu'. fold (users st) in Hu'.
  rewrite Hu in Hu'. injection Hu' as <-.
  apply delete_channel_lookup in Hc' as [Hc' Hne].
  rewrite Hch in Hc'. injection Hc' as <-. by apply Hne.
Qed.

Definition cat0 : Catalog :=
  mk_catalog (mk_DB (<[ "alice" := mk_user_row 1 (Some 100) true ]> ∅) [])
             (<[ 1 := mk_channel_row "ai" "https://discord/hook" ]> ∅) 1 1.

Lemma deleted_channel_orphans_users_witness :
  users cat0 !! "alice" = Some (mk_user_row 1 (Some 100) true) /\
  channels cat0 !! 1 = Some (mk_channel_row "ai" "https://discord/hook") /\
  (users (snd (delete_channel false cat0 "ai")) !! "alice" = Some (mk_user_row 1 (Some 100) true) /\
   forall row, In row (get_active_users_with_channels false (snd (delete_channel false cat0 "ai"))) ->
               a_username row <> "alice").
Proof.
  split; [reflexivity|]. split; [reflexivity|].
  apply (deleted_channel_orphans_users cat0 "ai" "alice" (mk_user_row 1 (Some 100) true)
           (mk_channel_row "ai" "https://discord/hook")); reflexivity.
Defined.

(** Outside an event loop, [get_active_users_with_channels] lists exactly
    the active users whose channel exists, each with its channel's name and
    webhook; from a running loop it lists nobody. *)
Theorem active_users_join_spec (st : Catalog) (row : active_row) :
  (In row (get_active_users_with_channels false st) <->
   exists r ch, users st !! a_username row = Some r /\ u_is_active r = true /\
                channels st !! u_channel_id r = Some ch /\
                row = mk_active_row (a_username row) (u_channel_id r) (u_last_tweet_id r) true
                                    (ch_name ch) (ch_webhook_url ch)) /\
  get_active_users_with_channels true st = [].
Proof. split; [apply in_active_join|done]. Qed.

(** Outside an event loop, [list_users] for a named channel lists exactly
    the users of that channel, and for an unknown name it lists nobody;
    from a running loop it lists nobody for any channel. *)
Theorem list_users_by_channel (st : Catalog) (name : string) (row : listed_user)
    (Hne : name <> "") :
  (channel_by_name st name = None -> list_users false st (Some name) = []) /\
  (forall id ch, channel_by_name st name = Some (id, ch) ->
     In row (list_users false st (Some name)) <->
     exists r, users st !! lu_username row = Some r /\ u_channel_id r = id /\
               row = mk_listed_user (lu_username row) name (u_last_tweet_id r) (u_is_active r)) /\
  list_users true st (Some name) = [].
Proof.
  unfold list_users.
  destruct (String.eqb name "") eqn:E; [apply String.eqb_eq in E; done|].
  split; [by intros ->|].
  split; [|reflexivity].
  intros id ch Hc. rewrite Hc.
  apply channel_by_name_Some in Hc as [Hc Hn].
  rewrite in_joined_users. split.
  - intros (r & ch' & Hu & Hc' & Hk & ->). apply Z.eqb_eq in Hk.
    rewrite Hk, Hc in Hc'. injection Hc' as <-.
    exists r. by rewrite Hn.
  - intros (r & Hu & Hid & ->). exists r, ch. simpl. rewrite Hid, Hc, Hn.
    split; [done|]. split; [done|]. split; [apply Z.eqb_refl|done].
Qed.

Lemma list_users_by_channel_witness :
  "ai" <> "" /\
  ((channel_by_name cat0 "ai" = None -> list_users false cat0 (Some "ai") = []) /\
   (forall id ch, channel_by_name cat0 "ai" = Some (id, ch) ->
      In (mk_listed_user "alice" "ai" (Some 100) true) (list_users false cat0 (Some "ai")) <->
      exists r, users cat0 !! "alice" = Some r /\ u_channel_id r = id /\
                mk_listed_user "alice" "ai" (Some 100) true =
                mk_listed_user "alice" "ai" (u_last_tweet_id r) (u_is_active r)) /\
   list_users true cat0 (Some "ai") = []).
Proof.
  split; [discriminate|].
  apply (list_users_by_channel cat0 "ai" (mk_listed_user "alice" "ai" (Some 100) true)).
  discriminate.
Defined.

End CatalogExtras.

Module MaxByIdProofs.
Import Scheduler.

Lemma max_by_id_split (l : list Tweet) : forall pre acc mid,
  Forall (fun x => t_id x < t_id acc) pre -> Forall (fun x => t_id x <= t_id acc) mid ->
  exists pre' post,
    pre ++ acc :: mid ++ l = pre' ++ max_by_id acc l :: post /\
    Forall (fun x => t_id x < t_id (max_by_id acc l)) pre' /\
    Forall (fun x => t_id x <= t_id (max_by_id acc l)) post.
Proof.
  induction l as [|h l IH]; intros pre acc mid Hpre Hmid; simpl.
  - exists pre, mid. by rewrite app_nil_r.
  - destruct (Z.ltb_spec (t_id acc) (t_id h)) as [Hlt|Hge].
    + destruct (IH (pre ++ acc :: mid) h []) as (pre' & post & Heq & H1 & H2).
      * apply Forall_app. split.
        { eapply Forall_impl; [exact Hpre|]. simpl. intros x Hx. lia. }
        constructor; [lia|]. eapply Forall_impl; [exact Hmid|]. simpl. intros x Hx. lia.
      * constructor.
      * exists pre', post. split; [|done].
        rewrite <- Heq. simpl. by rewrite <- app_assoc.
    + destruct (IH pre acc (mid ++ [h])) as (pre' & post & Heq & H1 & H2).
      * done.
      * apply Forall_app. split; [done|]. constructor; [lia|constructor].
      * exists pre', post. split; [|done].
        rewrite <- Heq. by rewrite <- app_assoc.
Qed.

End MaxByIdProofs.

Module CycleExtras.
Import Database Scheduler Catalog CycleRun MaxByIdProofs.

(** [max(tweets, key=lambda t: int(t.id))] as [_handle_new_user] uses it:
    the result is a tweet of the list with the largest id, and the first
    such (every earlier tweet has a strictly smaller id). *)
Theorem max_by_id_first_maximal (t : Tweet) (l : list Tweet) :
  exists pre post,
    t :: l = pre ++ max_by_id t l :: post /\
    Forall (fun x => t_id x < t_id (max_by_id t l)) pre /\
    Forall (fun x => t_id x <= t_id (max_by_id t l)) post.
Proof.
  destruct (max_by_id_split l [] t []) as (pre & post & Heq & H1 & H2); [constructor|constructor|].
  exists pre, post. split; [exact Heq|done].
Qed.

(** The monitoring loop never looks at an account: [run_once] always stops
    at "No active users", since its database call sees the running loop;
    even rows returned by the query would make every task fail on
    [user.username]; and [run] with AI analysis and urgent notifications on
    raises before its first cycle. *)
Theorem scheduler_never_processes_accounts (enable_ai urgent_enabled : bool) (sts : list Catalog) :
  run enable_ai urgent_enabled sts =
    (if enable_ai && urgent_enabled then Raise (AttributeError "MIN_DELAY_MINUTES")
     else Ok (repeat NoActiveUsers (length sts))) /\
  forall loop_running st,
    match run_once_with loop_running st with
    | NoActiveUsers => True
    | CycleCompleted es => Forall (fun e => e = AttributeError "username") es
    end.
Proof.
  split.
  - unfold run. destruct (enable_ai && urgent_enabled); [done|].
    f_equal. induction sts as [|st sts IH]; [done|]. simpl. by rewrite IH.
  - intros loop_running st. unfold run_once_with.
    destruct (get_active_users_with_channels loop_running st) as [|x l]; [done|].
    apply Forall_forall. intros e He. apply list_elem_of_fmap in He as (? & -> & _). done.
Qed.

(** An account the API reports as not found is logged but never marked
    inactive: [db.set_user_inactive] is not awaited, so the account stays
    active and is fetched again on every cycle; awaiting the call would have
    cleared [is_active]. *)
Theorem not_found_account_stays_active (env : Env) (db : DB) (user : UserWithChannel) (r : user_row)
    (Hu : monitored_users db !! user_username user = Some r)
    (Hact : u_is_active r = true) :
  let '(err, db', evs) := process_user_fetch env db user (FetchFailed TwitterNotFound) in
  err = None /\
  monitored_users db' !! user_username user = Some r /\
  monitored_users (await_all db' evs) !! user_username user =
    Some (mk_user_row (u_channel_id r) (u_last_tweet_id r) false).
Proof.
  simpl. split; [done|]. split; [done|].
  unfold await_all. simpl. rewrite Hu. simpl. by rewrite lookup_insert_eq.
Qed.

Definition db_alice_active : DB := mk_DB (<[ "alice" := mk_user_row 7 (Some 100) true ]> ∅) [].
Definition env_plain : Env := mk_env false false (fun _ => Raise CollaboratorError) (fun _ => false).
Definition user_alice : UserWithChannel := mk_user "alice" 7 (Some 100) "https://discord/hook".

Lemma not_found_account_stays_active_witness :
  monitored_users db_alice_active !! "alice" = Some (mk_user_row 7 (Some 100) true) /\
  u_is_active (mk_user_row 7 (Some 100) true) = true /\
  (let '(err, db', evs) := process_user_fetch env_plain db_alice_active user_alice (FetchFailed TwitterNotFound) in
   err = None /\
   monitored_users db' !! "alice" = Some (mk_user_row 7 (Some 100) true) /\
   monitored_users (await_all db' evs) !! "alice" = Some (mk_user_row 7 (Some 100) false)).
Proof.
  split; [reflexivity|]. split; [reflexivity|].
  exact (not_found_account_stays_active env_plain db_alice_active user_alice (mk_user_row 7 (Some 100) true)
           eq_refl eq_refl).
Defined.

End CycleExtras.
